(** * PictureAsset: responsive, lazily revealed Sanity image

    A shallow embedding of [Frontend/React/picutreAsset.js]: the helper
    [breakPointsToString] and the function component [PictureAsset], with
    the two hooks of the component ([useState], [useInView]) as explicit
    instance state.

    JavaScript numbers are IEEE 754 doubles, embedded as primitive floats.
    Objects with a fixed shape (the image asset, the named props) are
    records whose optional fields read [None] when the property is absent
    ([undefined]); objects used as maps (element props, [style] objects,
    the rest props) are [gmap]s keyed by property name.

    The component's defaults ([image = {}], [metadata = {}],
    [dimensions = {}], [breakPoints = defaultBreakpoints]) cover
    [undefined] and not [null]. Where a [null] makes the component throw
    ([image], [metadata], [dimensions], [breakPoints]) or changes what it
    computes ([lqip], [dimensions.aspectRatio]), the field is an
    [optional], which tells [null] from absent. *)

From Stdlib Require Import Floats.
From stdpp Require Import base option list strings gmap pretty.

Local Open Scope float_scope.
Local Open Scope stdpp_scope.

(** ** JavaScript values *)

(** The primitive values that flow through the component. *)
Inductive value : Type :=
  | VUndefined
  | VNull
  | VBool (b : bool)
  | VNum (x : float)
  | VStr (s : string).

Definition nonempty (s : string) : bool :=
  match s with EmptyString => false | String _ _ => true end.

(** ToBoolean on a number: [0], [-0] and [NaN] are falsy. *)
Definition truthy_number (x : float) : bool :=
  negb (PrimFloat.eqb x 0 || PrimFloat.is_nan x).

(** ToBoolean. *)
Definition truthy (v : value) : bool :=
  match v with
  | VUndefined | VNull => false
  | VBool b => b
  | VNum x => truthy_number x
  | VStr s => nonempty s
  end.

(** [typeof v === 'number'] *)
Definition typeof_number (v : value) : bool :=
  match v with VNum _ => true | _ => false end.

(** [a || b] *)
Definition js_or (a b : value) : value := if truthy a then a else b.

(** [a && b] *)
Definition js_and (a b : value) : value := if truthy a then b else a.

(** An optional string property read as a value. *)
Definition of_string (o : option string) : value :=
  match o with Some s => VStr s | None => VUndefined end.

(** An optional number property read as a value. *)
Definition of_number (o : option float) : value :=
  match o with Some x => VNum x | None => VUndefined end.

(** A default parameter or destructuring default: used when [undefined]. *)
Definition or_default {A} (d : A) (o : option A) : A :=
  match o with Some a => a | None => d end.

(** A property or prop that may be absent ([undefined]), [null], or
    given. *)
Inductive optional (A : Type) : Type :=
  | Omitted
  | Null
  | Given (a : A).
Arguments Omitted {A}.
Arguments Null {A}.
Arguments Given {A} a.

(** A destructuring default [x = d]: [undefined] takes the default, a
    given value stays, and [null] stays [null], here [None]. *)
Definition defaulted {A} (d : A) (o : optional A) : option A :=
  match o with
  | Omitted => Some d
  | Null => None
  | Given a => Some a
  end.

(** A value that is [null] when [None]. *)
Definition nullable_string (o : option string) : value :=
  match o with Some s => VStr s | None => VNull end.

(** [Array.prototype.join] on an array of strings: the accumulator [R]
    starts empty, and from the second element on the separator is appended
    before the element. *)
Fixpoint join_from (sep R : string) (k : nat) (O : list string) : string :=
  match O with
  | [] => R
  | element :: rest =>
      let R := match k with 0%nat => R | S _ => R +:+ sep end in
      join_from sep (R +:+ element) (S k) rest
  end.

Definition join (O : list string) (sep : string) : string :=
  join_from sep "" 0 O.

(** ** The image asset *)

(** [metadata], [dimensions], [lqip] and [aspectRatio] may be absent or
    [null]: the component's defaults cover the first and not the second.
    The other fields of the asset are [None] when absent. *)
Record Dimensions := { dim_aspectRatio : optional float }.

Record Metadata := {
  lqip : optional string;
  dimensions : optional Dimensions }.

Record Asset := {
  _ref : option string;
  _id : option string;
  url : option string;
  extension : option string;
  mimeType : option string;
  metadata : optional Metadata }.

Record Image := { asset : option Asset }.

(** The object literal [{}] of the defaults [image = {}], [metadata = {}]
    and [dimensions = {}]. *)
Definition empty_image : Image := {| asset := None |}.
Definition empty_metadata : Metadata :=
  {| lqip := Omitted; dimensions := Omitted |}.
Definition empty_dimensions : Dimensions := {| dim_aspectRatio := Omitted |}.

(** [dimensions.aspectRatio] as a value. *)
Definition aspectRatio_value (d : Dimensions) : value :=
  match dim_aspectRatio d with
  | Omitted => VUndefined
  | Null => VNull
  | Given r => VNum r
  end.

(** ** The URL builder of [lib/image-url] *)

(** Modelled from the spec: the module [lib/image-url] is not among the
    sources. [imageUrlFor(image)] starts a builder for the image;
    [.width(w)] and [.format(f)] each return the builder with that option
    set; [.url()], a field of [Host] below, is the remote service's URL
    for the options collected, the specification's
    [buildUrl(asset, width, format) -> URL]. *)
Record ImageUrlBuilder := {
  b_source : Image;
  b_width : option float;
  b_format : option string }.

Definition imageUrlFor (image : Image) : ImageUrlBuilder :=
  {| b_source := image; b_width := None; b_format := None |}.

Definition with_width (w : float) (b : ImageUrlBuilder) : ImageUrlBuilder :=
  {| b_source := b_source b; b_width := Some w; b_format := b_format b |}.

Definition with_format (f : string) (b : ImageUrlBuilder) : ImageUrlBuilder :=
  {| b_source := b_source b; b_width := b_width b; b_format := Some f |}.

Definition defaultBreakpoints : list float := [1200; 1000; 800; 600; 400].
Definition DEFAULT_MAX_WIDTH : float := 1780.

(** ** Elements *)

(** What an event handler of the component does when it runs. *)
Inductive action : Type :=
  | SetShow (b : bool).

(** The value of an element property. *)
Inductive attr : Type :=
  | AVal (v : value)
  | AStyle (declarations : gmap string value)
  | AHandler (a : action)
  | ARef
  | AForeign (token : string).

(** A property the caller passes through: a primitive value, or an
    object or function of the caller's, opaque to the component. *)
Inductive passthrough : Type :=
  | PVal (v : value)
  | POpaque (token : string).

Definition pass (p : passthrough) : attr :=
  match p with
  | PVal v => AVal v
  | POpaque token => AForeign token
  end.

(** React nodes: host elements, fragments, nodes built by the caller (the
    [loader]), and the child [false] left by a failed [cond && <x/>],
    which renders nothing. *)
#[warnings="-register-all"]
Inductive node : Type :=
  | Elem (tag : string) (props : gmap string attr) (children : list node)
  | Fragment (children : list node)
  | Foreign (token : string)
  | NFalse.

(** [cond && <x/>] as a child. *)
Definition when (cond : bool) (n : node) : node := if cond then n else NFalse.

(** The host elements of a node, parents before children, in document
    order. *)
Fixpoint elements (n : node) : list (string * gmap string attr) :=
  match n with
  | Elem tag props children => (tag, props) :: flat_map elements children
  | Fragment children => flat_map elements children
  | Foreign _ | NFalse => []
  end.

(** The props of the host elements with a given tag. *)
Definition tagged (tag : string) (n : node) : list (gmap string attr) :=
  snd <$> List.filter (λ e, bool_decide (fst e = tag)) (elements n).

(** The children of the elements with a given tag. *)
Fixpoint children_of (tag : string) (n : node) : list node :=
  match n with
  | Elem t props children =>
      (if bool_decide (t = tag) then children else [])
        ++ flat_map (children_of tag) children
  | Fragment children => flat_map (children_of tag) children
  | Foreign _ | NFalse => []
  end.

(** The host elements inside [<picture>]: the format sources and the
    final image. *)
Definition in_picture (n : node) : list (string * gmap string attr) :=
  flat_map elements (children_of "picture" n).

(** The final image: the [<img>] inside [<picture>]. *)
Definition final_image (n : node) : list (gmap string attr) :=
  snd <$> List.filter (λ e, bool_decide (fst e = "img")) (in_picture n).

(** The [padding-top] reservations of the spacers in a node. *)
Definition reservations (n : node) : list value :=
  omap (λ e, match e.2 !! "style" with
             | Some (AStyle declarations) => declarations !! "paddingTop"
             | _ => None
             end) (elements n).

(** ** Props *)

(** The props object the component is called with, [defaultProps] already
    filled in by React ([isFluid: false], [objectFit: 'cover'], [alt: ''],
    [height: null], [width: null], [className: null]); [className] is
    [None] for [null]. [breakPoints] may be left out, [null] or an array:
    a [null] skips the default and makes the component throw. The
    remaining fields are [None] when the caller leaves the prop out; for
    [aspectRatio] and [loader], which the component only tests for
    truthiness, [None] stands for [null] as well. [maxWidth] is a number
    when it is passed. [otherProps] collects every other property. *)
Record Props := {
  image : optional Image;
  isFluid : bool;
  objectFit : string;
  maxWidth : option float;
  width : value;
  height : value;
  aspectRatio : option float;
  alt : string;
  className : option string;
  breakPoints : optional (list float);
  loader : option string;
  sizes : option string;
  otherProps : gmap string passthrough }.

(** ** Effects: console output and exceptions *)

Inductive exn : Type :=
  | TypeError (message : string)
  | Error (message : string).

Inductive completion (A : Type) : Type :=
  | Returned (a : A)
  | Thrown (e : exn).
Arguments Returned {A} a.
Arguments Thrown {A} e.

(** A computation that writes to the console and returns or throws. *)
Record M (A : Type) := Run {
  console : list string;
  outcome : completion A }.
Arguments Run {A} console outcome.
Arguments console {A} m.
Arguments outcome {A} m.

Global Instance M_ret : MRet M := λ A a, Run [] (Returned a).

Global Instance M_bind : MBind M := λ A B f m,
  match outcome m with
  | Returned a => Run (console m ++ console (f a)) (outcome (f a))
  | Thrown e => Run (console m) (Thrown e)
  end.

Definition throw {A} (e : exn) : M A := Run [] (Thrown e).
Definition console_error (message : string) : M unit :=
  Run [message] (Returned tt).

(** ** Instance state *)

(** The state the two hooks keep for one mounted instance: [show] of
    [useState(false)] and [inView] of [useInView]. *)
Record Hooks := {
  show : bool;
  inView : bool }.

(** A freshly mounted instance. [useState(false)] starts [show] at
    [false]; [useInView] starts [inView] at [false]. *)
Definition mount : Hooks := {| show := false; inView := false |}.

Definition run_action (a : action) (hooks : Hooks) : Hooks :=
  match a with
  | SetShow b => {| show := b; inView := inView hooks |}
  end.

(** The observer of [useInView({ triggerOnce: true })] reports whether
    the observed element intersects the viewport; after the first report
    of an intersection it stops observing. *)
Definition observer_report (intersecting : bool) (hooks : Hooks) : Hooks :=
  if inView hooks then hooks
  else {| show := show hooks; inView := intersecting |}.

(** What happens to a mounted instance: the observer reports, or the
    browser fires [load] on the images that listen for it. *)
Inductive event : Type :=
  | Visibility (intersecting : bool)
  | Load.

(** ** The source set as the specification words it *)

(** [retained W bps kept]: [kept] is [bps] with exactly the breakpoints
    that are not [<= W] struck out, the others left in place. *)
Inductive retained (W : float) : list float → list float → Prop :=
  | retained_nil : retained W [] []
  | retained_keep b bps kept :
      PrimFloat.leb b W = true → retained W bps kept →
      retained W (b :: bps) (b :: kept)
  | retained_drop b bps kept :
      PrimFloat.leb b W = false → retained W bps kept →
      retained W (b :: bps) kept.

(** ** The host of the component

    What the component takes from outside its file. *)
Class Host := {
  (** The builder's [.url()]. *)
  builder_url : ImageUrlBuilder → string;
  (** The language's Number::toString, used by the template literals. *)
  Number_toString : float → string;
  (** The language's ToNumber on strings, used by [width / aspectRatio]
      when [width] is a string. *)
  String_toNumber : string → float;
  (** The class names exported by [picture-asset.module.scss]. *)
  styles : string → string }.

Section Component.

Context {host : Host}.

Definition breakPointsToString (image : Image) (format : option string)
    (maxWidth : option float) (breakPoints : option (list float)) : string :=
  let format := or_default "jpg" format in
  let maxWidth := or_default DEFAULT_MAX_WIDTH maxWidth in
  let breakPoints := or_default defaultBreakpoints breakPoints in
  let bpMap :=
    map (λ breakPoint,
           let urlBuilder :=
             with_format format (with_width breakPoint (imageUrlFor image)) in
           builder_url urlBuilder +:+ " " +:+ Number_toString breakPoint +:+ "w")
        (List.filter (λ breakPoint, PrimFloat.leb breakPoint maxWidth) breakPoints) in
  join bpMap ", ".

(** One descriptor ["<url> <b>w"], the URL being the builder's for width
    [b] and format [format]. *)
Definition descriptor (image : Image) (format : string) (b : float) : string :=
  builder_url {| b_source := image; b_width := Some b; b_format := Some format |}
    +:+ " " +:+ Number_toString b +:+ "w".

(** [ToNumber]. *)
Definition to_number (v : value) : float :=
  match v with
  | VUndefined => nan
  | VNull => 0
  | VBool b => if b then 1 else 0
  | VNum x => x
  | VStr s => String_toNumber s
  end.

(** [clsx(...args)] on strings, numbers and falsy values: the truthy
    arguments, separated by single spaces. *)
Definition clsx_toVal (mix : value) : string :=
  match mix with
  | VStr s => s
  | VNum x => Number_toString x
  | _ => ""
  end.

Definition clsx (args : list value) : string :=
  fold_left
    (λ str tmp,
       if truthy tmp then
         let x := clsx_toVal tmp in
         if nonempty x then (if nonempty str then str +:+ " " else str) +:+ x
         else str
       else str)
    args "".

(** [breakPointsToString(image, format, maxWidth, breakPoints)] as the
    component calls it, with a [breakPoints] that is an array or [null]:
    on [null] the call throws at [breakPoints.filter]. *)
Definition call_breakPointsToString (image : Image) (format : option string)
    (maxWidth : float) (breakPoints : option (list float)) : M string :=
  match breakPoints with
  | Some breakPoints =>
      mret (breakPointsToString image format (Some maxWidth) (Some breakPoints))
  | None =>
      throw (TypeError "Cannot read properties of null (reading 'filter')")
  end.

(** [dimensions.aspectRatio] with a [dimensions] that is an object or
    [null]: reading a property of [null] throws. *)
Definition read_aspectRatio (dimensions : option Dimensions) : M value :=
  match dimensions with
  | Some dimensions => mret (aspectRatio_value dimensions)
  | None =>
      throw (TypeError "Cannot read properties of null (reading 'aspectRatio')")
  end.

Definition PictureAsset (props : Props) (hooks : Hooks) : M (option node) :=
  let isFluid := isFluid props in
  let objectFit := objectFit props in
  let maxWidth := or_default DEFAULT_MAX_WIDTH (maxWidth props) in
  let width := width props in
  let height := height props in
  let alt := alt props in
  let className :=
    match className props with Some c => VStr c | None => VNull end in
  let breakPoints := defaulted defaultBreakpoints (breakPoints props) in
  let sizes := or_default "" (sizes props) in
  let show := show hooks in
  let inView := inView hooks in
  image ← match image props with
          | Omitted => mret empty_image
          | Given image => mret image
          | Null =>
              throw (TypeError "Cannot destructure property 'asset' of 'image' as it is null.")
          end;
  let invalid :=
    console_error "Not a valid sanity image asset";; mret None in
  match asset image with
  | None => invalid
  | Some asset =>
    if negb (truthy (js_or (of_string (_ref asset)) (of_string (_id asset))))
    then invalid
    else
    let metadata := defaulted empty_metadata (metadata asset) in
    '(lqip, dimensions) ←
      match metadata with
      | Some metadata =>
          mret (defaulted "" (lqip metadata),
                defaulted empty_dimensions (dimensions metadata))
      | None =>
          throw (TypeError "Cannot destructure property 'lqip' of 'metadata' as it is null.")
      end;
    if negb isFluid && negb (truthy width) && negb (truthy height) then
      throw (Error "Picture Asset component requires one of isFluid or width or height")
    else
    let extension := extension asset in
    let mimeType := mimeType asset in
    if bool_decide (extension = Some "svg") then
      mret (Some (Elem "img"
        ((pass <$> otherProps props) ∪
           {[ "src" := AVal (of_string (url asset));
              "alt" := AVal (VStr alt);
              "className" := AVal className ]})
        []))
    else
    '(computedWidth, computedHeight, webpSrcSet, defaultSrcSet) ←
      (if isFluid then
         webpSrcSet ←
           call_breakPointsToString image (Some "webp") maxWidth breakPoints;
         defaultSrcSet ←
           call_breakPointsToString image extension maxWidth breakPoints;
         mret (VStr "100%",
               if negb (truthy height) then VStr "100%" else height,
               webpSrcSet, defaultSrcSet)
       else
         let computedWidth :=
           match width with VNum w => w | _ => maxWidth end in
         computedHeight ←
           (if truthy height then mret height
            else
              aspectRatio ← read_aspectRatio dimensions;
              mret (VNum (to_number width / to_number aspectRatio)));
         webpSrcSet ←
           call_breakPointsToString image (Some "webp") computedWidth breakPoints;
         defaultSrcSet ←
           call_breakPointsToString image extension computedWidth breakPoints;
         mret (VNum computedWidth, computedHeight, webpSrcSet, defaultSrcSet));
    let url := builder_url (with_width maxWidth (imageUrlFor image)) in
    let fit :=
      if bool_decide (objectFit = "cover") then styles "cover" else styles "contain" in
    spacer ←
      (if isFluid then
         ratio ←
           (if truthy (of_number (aspectRatio props))
            then mret (of_number (aspectRatio props))
            else read_aspectRatio dimensions);
         mret (Elem "div"
           {[ "className" := AVal (VStr (styles "aspectRatio"));
              "style" := AStyle
                {[ "paddingTop" :=
                     VStr (Number_toString (100 / to_number ratio) +:+ "%") ]} ]}
           [])
       else mret NFalse);
    mret (Some (Elem "div"
      {[ "ref" := ARef;
         "className" := AVal (VStr (clsx [VStr (styles "assetWrapper"); className]));
         "style" := AStyle {[ "width" := computedWidth; "height" := computedHeight ]} ]}
      [ Elem "div"
          {[ "className" :=
               AVal (VStr (clsx [VStr (styles "hider");
                                 js_and (VBool show) (VStr (styles "hide"))])) ]}
          [ match loader props with
            | Some token => Foreign token
            | None =>
                Elem "img"
                  {[ "src" := AVal (js_or (nullable_string lqip) (VStr ""));
                     "className" := AVal (VStr (clsx [VStr (styles "lqip"); VStr fit]));
                     "alt" := AVal (VStr "Placeholder") ]}
                  []
            end ];
        spacer;
        Elem "picture"
          {[ "className" :=
               AVal (VStr (clsx [VStr (styles "picture");
                                 js_and (VBool show) (VStr (styles "show"))])) ]}
          [ when inView
              (Fragment
                 [ Elem "source"
                     {[ "type" := AVal (VStr "image/webp");
                        "srcSet" := AVal (VStr webpSrcSet);
                        "sizes" := AVal (VStr sizes) ]} [];
                   Elem "source"
                     {[ "type" := AVal (of_string mimeType);
                        "srcSet" := AVal (VStr defaultSrcSet);
                        "sizes" := AVal (VStr sizes) ]} [];
                   Elem "img"
                     {[ "className" :=
                          AVal (VStr (clsx [VStr (styles "image");
                                            js_and (VBool isFluid) (VStr (styles "fluid"));
                                            VStr fit]));
                        "onLoad" := AHandler (SetShow true);
                        "src" := AVal (VStr url);
                        "srcSet" := AVal (VStr defaultSrcSet);
                        "alt" := AVal (VStr alt);
                        "sizes" := AVal (VStr sizes) ]} [] ]) ] ]))
  end.

(** What is on screen: the node returned, nothing when the component
    returned [null] or threw. *)
Definition rendered (props : Props) (hooks : Hooks) : node :=
  match outcome (PictureAsset props hooks) with
  | Returned (Some n) => n
  | Returned None | Thrown _ => NFalse
  end.

(** Whether the [ref] of [useInView] is attached to an element. *)
Definition observed (n : node) : bool :=
  existsb (λ e, match e.2 !! "ref" with Some ARef => true | _ => false end)
    (elements n).

(** The [onLoad] handlers in a node. *)
Definition onLoad_handlers (n : node) : list action :=
  omap (λ e, match e.2 !! "onLoad" with
             | Some (AHandler a) => Some a
             | _ => None
             end) (elements n).

(** One event on an instance rendered with [props]. The observer can
    only report on an element the [ref] is attached to; [load] runs the
    handlers of the images on screen. *)
Definition step (props : Props) (hooks : Hooks) (e : event) : Hooks :=
  let n := rendered props hooks in
  match e with
  | Visibility intersecting =>
      if observed n then observer_report intersecting hooks else hooks
  | Load => foldr run_action hooks (onLoad_handlers n)
  end.

(** A lifetime: each event arrives while the instance is rendered with
    the props of that moment. *)
Fixpoint lifetime (trace : list (Props * event)) (hooks : Hooks) : Hooks :=
  match trace with
  | [] => hooks
  | (props, e) :: trace => lifetime trace (step props hooks e)
  end.

End Component.

(** ** A concrete host for the examples

    The theorems below hold for every URL builder, number printer, string
    reader and style sheet. The closed examples run the component with
    the following ones. *)

(** Number::toString on [NaN], the infinities, the zeros and the integral
    doubles below [10^21], which print as their decimal digits. A double
    with a fractional part, or an integral one from [10^21] on, has a
    shortest-digits form that is not computed here: such a value is shown
    as its exact mantissa and binary exponent. *)
Definition integral_toString (x : float) : string :=
  match Prim2SF x with
  | S754_zero _ => "0"
  | S754_infinity s => if s then "-Infinity" else "Infinity"
  | S754_nan => "NaN"
  | S754_finite s m e =>
      let sign := if s then "-" else "" in
      let exact := sign +:+ pretty (Z.pos m) +:+ "p" +:+ pretty e in
      if (0 <=? e)%Z then
        let n := (Z.pos m * 2 ^ e)%Z in
        if (n <? 10 ^ 21)%Z then sign +:+ pretty n else exact
      else
        let d := (2 ^ (- e))%Z in
        if (Z.pos m mod d =? 0)%Z then sign +:+ pretty (Z.pos m / d)%Z else exact
  end.

(** ToNumber on the empty string and on strings of decimal digits; other
    strings read as [NaN] here. *)
Fixpoint digits_value (acc : Z) (s : string) : option Z :=
  match s with
  | EmptyString => Some acc
  | String c s =>
      n ← Ascii.is_nat c;
      digits_value (10 * acc + Z.of_nat n)%Z s
  end.

Definition digits_toNumber (s : string) : float :=
  match digits_value 0 s with
  | Some n => PrimFloat.of_uint63 (Uint63.of_Z n)
  | None => nan
  end.

(** URLs in the manner of the image service: the asset's reference, then
    the width and the format requested, when there is one. *)
Definition cdn_url (b : ImageUrlBuilder) : string :=
  let name :=
    match asset (b_source b) with
    | Some a => or_default (or_default "" (_id a)) (_ref a)
    | None => ""
    end in
  "https://cdn.example/" +:+ name
    +:+ match b_width b with
        | Some w => "?w=" +:+ integral_toString w
        | None => ""
        end
    +:+ match b_format b with
        | Some f => "&fm=" +:+ f
        | None => ""
        end.

(** Class names as a CSS module generates them. *)
Definition module_styles (name : string) : string := "pa_" +:+ name.

Definition sample_host : Host := {|
  builder_url := cdn_url;
  Number_toString := integral_toString;
  String_toNumber := digits_toNumber;
  styles := module_styles |}.

(** ** The vocabulary of the claims *)

(** The asset carries an identity the builder can resolve: a non-empty
    [_ref] or [_id]. *)
Definition resolvable (a : Asset) : bool :=
  truthy (js_or (of_string (_ref a)) (of_string (_id a))).

(** A prop is supplied when it is neither left out nor [null]. *)
Definition supplied (v : value) : bool :=
  match v with
  | VUndefined | VNull => false
  | _ => true
  end.

(** Some sizing is configured: [isFluid], or a truthy [width] or
    [height]. *)
Definition sized (props : Props) : bool :=
  isFluid props || truthy (width props) || truthy (height props).

(** The [metadata] and [dimensions] bindings of lines 73-74, for an
    asset whose [metadata] is not [null]; [dimensions_of] is [None] when
    [dimensions] is [null]. *)
Definition metadata_of (a : Asset) : Metadata :=
  match metadata a with
  | Given m => m
  | _ => empty_metadata
  end.

Definition dimensions_of (a : Asset) : option Dimensions :=
  defaulted empty_dimensions (dimensions (metadata_of a)).

(** Whether the render reads [dimensions.aspectRatio]: in fluid mode
    when the [aspectRatio] option is not truthy (line 134), in fixed mode
    when [height] is not truthy (line 102). *)
Definition reads_dimensions (props : Props) : bool :=
  if isFluid props then negb (truthy (of_number (aspectRatio props)))
  else negb (truthy (height props)).

(** No property of a [null] [dimensions] is read. *)
Definition dimensions_readable (props : Props) (a : Asset) : bool :=
  match dimensions_of a with
  | Some _ => true
  | None => negb (reads_dimensions props)
  end.

(** The breakpoints of a render: the [breakPoints] prop, the five
    defaults when it is left out. *)
Definition break_points (props : Props) : list float :=
  match breakPoints props with
  | Given b => b
  | _ => defaultBreakpoints
  end.

(** [props] carry the image [img] with the asset [a], the asset is
    resolvable, its [metadata] is not [null] and some sizing is
    configured: the component gets past its guards. *)
Record accepted (props : Props) (img : Image) (a : Asset) : Prop := {
  accepted_image : image props = Given img;
  accepted_asset : asset img = Some a;
  accepted_identity : resolvable a = true;
  accepted_metadata : metadata a ≠ Null;
  accepted_sizing : sized props = true }.

(** A raster render: the props are accepted, the asset is not a vector
    image, and the component returns its element, that is, [breakPoints]
    is not [null] and no property of a [null] [dimensions] is read. *)
Record raster (props : Props) (img : Image) (a : Asset) : Prop := {
  raster_accepted : accepted props img a;
  raster_extension : extension a ≠ Some "svg";
  raster_breakPoints : breakPoints props ≠ Null;
  raster_dimensions : dimensions_readable props a = true }.

(** The configured [maxWidth], 1780 when the caller leaves it out. *)
Definition max_width (props : Props) : float :=
  or_default DEFAULT_MAX_WIDTH (maxWidth props).

(** The rendered width of fixed mode: [width] when it is a number,
    [maxWidth] otherwise. *)
Definition rendered_width (props : Props) : float :=
  match width props with
  | VNum w => w
  | _ => max_width props
  end.

(** The active width ceiling: [maxWidth] in fluid mode, the rendered
    width in fixed mode. *)
Definition width_ceiling (props : Props) : float :=
  if isFluid props then max_width props else rendered_width props.

(** The asset's intrinsic aspect ratio as a number: [NaN] when the asset
    has none, [0] when the field is [null]. *)
Definition intrinsic_ratio (a : Asset) : float :=
  match dimensions_of a with
  | Some d =>
      match dim_aspectRatio d with
      | Given r => r
      | Null => 0
      | Omitted => nan
      end
  | None => nan
  end.

(** [aspectRatio ?? dimensions.aspectRatio]: the explicit option whenever
    it is supplied. *)
Definition nullish_ratio (props : Props) (a : Asset) : float :=
  match aspectRatio props with
  | Some r => r
  | None => intrinsic_ratio a
  end.

(** The explicit option when it is supplied and truthy (neither [0] nor
    [NaN]), the intrinsic ratio otherwise. *)
Definition truthy_ratio (props : Props) (a : Asset) : float :=
  match aspectRatio props with
  | Some r => if truthy_number r then r else intrinsic_ratio a
  | None => intrinsic_ratio a
  end.

Definition invalid_asset_message : string := "Not a valid sanity image asset".
Definition missing_sizing_message : string :=
  "Picture Asset component requires one of isFluid or width or height".

(** The [style] of the outermost element. *)
Definition box_style (n : node) : gmap string value :=
  match n with
  | Elem _ props _ =>
      match props !! "style" with
      | Some (AStyle declarations) => declarations
      | _ => ∅
      end
  | _ => ∅
  end.

(** The same props with another [image]. *)
Definition with_image (i : optional Image) (p : Props) : Props := {|
  image := i; isFluid := isFluid p; objectFit := objectFit p;
  maxWidth := maxWidth p; width := width p; height := height p;
  aspectRatio := aspectRatio p; alt := alt p; className := className p;
  breakPoints := breakPoints p; loader := loader p; sizes := sizes p;
  otherProps := otherProps p |}.

(** The attributes the component gives the plain image of a vector
    asset: the asset's URL as [src], then [alt] and [className]. *)
Definition plain_attributes (props : Props) (a : Asset) : gmap string attr :=
  {[ "src" := AVal (of_string (url a));
     "alt" := AVal (VStr (alt props));
     "className" :=
       AVal (match className props with Some c => VStr c | None => VNull end) ]}.

(** The plain image: one [<img>] without children, carrying the
    attributes above and the pass-through properties, which win on a
    name clash. *)
Definition plain_image (props : Props) (a : Asset) : node :=
  Elem "img" ((pass <$> otherProps props) ∪ plain_attributes props a) [].

(** An asset object with no field at all. *)
Definition anonymous : Asset := {|
  _ref := None; _id := None; url := None; extension := None;
  mimeType := None; metadata := Omitted |}.

(** ** Sample assets and props *)

(** A landscape photo, twice as wide as high. *)
Definition photo : Asset := {|
  _ref := Some "image-abc-2000x1000-jpg";
  _id := None;
  url := Some "https://cdn.example/image-abc-2000x1000.jpg";
  extension := Some "jpg";
  mimeType := Some "image/jpeg";
  metadata := Given {|
    lqip := Given "data:image/jpeg;base64,AAAA";
    dimensions := Given {| dim_aspectRatio := Given 2 |} |} |}.

(** A vector logo, identified by [_id]. *)
Definition logo : Asset := {|
  _ref := None;
  _id := Some "image-logo-svg";
  url := Some "https://cdn.example/logo.svg";
  extension := Some "svg";
  mimeType := Some "image/svg+xml";
  metadata := Omitted |}.

(** A portrait photo, twice as high as wide. *)
Definition portrait : Asset := {|
  _ref := Some "image-def-500x1000-png";
  _id := None;
  url := Some "https://cdn.example/image-def-500x1000.png";
  extension := Some "png";
  mimeType := Some "image/png";
  metadata := Given {|
    lqip := Omitted;
    dimensions := Given {| dim_aspectRatio := Given 0.5 |} |} |}.

Definition image_of (a : Asset) : Image := {| asset := Some a |}.

(** [<PictureAsset image={{ asset }} />] with nothing else passed. *)
Definition props_of (a : Asset) : Props := {|
  image := Given (image_of a);
  isFluid := false;
  objectFit := "cover";
  maxWidth := None;
  width := VNull;
  height := VNull;
  aspectRatio := None;
  alt := "";
  className := None;
  breakPoints := Omitted;
  loader := None;
  sizes := None;
  otherProps := ∅ |}.

(** The same props with [isFluid] set. *)
Definition fluid (p : Props) : Props := {|
  image := image p; isFluid := true; objectFit := objectFit p;
  maxWidth := maxWidth p; width := width p; height := height p;
  aspectRatio := aspectRatio p; alt := alt p; className := className p;
  breakPoints := breakPoints p; loader := loader p; sizes := sizes p;
  otherProps := otherProps p |}.

(** The same props with [width={w}] and [isFluid] not set. *)
Definition fixed (w : float) (p : Props) : Props := {|
  image := image p; isFluid := false; objectFit := objectFit p;
  maxWidth := maxWidth p; width := VNum w; height := height p;
  aspectRatio := aspectRatio p; alt := alt p; className := className p;
  breakPoints := breakPoints p; loader := loader p; sizes := sizes p;
  otherProps := otherProps p |}.

(** The same props with another [aspectRatio]. *)
Definition with_aspectRatio (r : option float) (p : Props) : Props := {|
  image := image p; isFluid := isFluid p; objectFit := objectFit p;
  maxWidth := maxWidth p; width := width p; height := height p;
  aspectRatio := r; alt := alt p; className := className p;
  breakPoints := breakPoints p; loader := loader p; sizes := sizes p;
  otherProps := otherProps p |}.

(** [<PictureAsset image={photo} isFluid />] and
    [<PictureAsset image={photo} width={400} />]. *)
Definition fluid_photo : Props := fluid (props_of photo).
Definition fixed_photo : Props := fixed 400 (props_of photo).

(** [<PictureAsset image={portrait} isFluid />], and the same with
    [aspectRatio={0}]. *)
Definition fluid_portrait : Props := fluid (props_of portrait).
Definition flat_portrait : Props := with_aspectRatio (Some 0) fluid_portrait.

(** An instance the observer has seen and whose image has not loaded. *)
Definition visible : Hooks := {| show := false; inView := true |}.

(** ** More vocabulary: what else is on screen *)

(** The caller's nodes a node embeds, in document order. *)
Fixpoint foreigns (n : node) : list string :=
  match n with
  | Elem _ _ children => flat_map foreigns children
  | Fragment children => flat_map foreigns children
  | Foreign token => [token]
  | NFalse => []
  end.

(** The same props with other pass-through properties. *)
Definition with_otherProps (o : gmap string passthrough) (p : Props) : Props := {|
  image := image p; isFluid := isFluid p; objectFit := objectFit p;
  maxWidth := maxWidth p; width := width p; height := height p;
  aspectRatio := aspectRatio p; alt := alt p; className := className p;
  breakPoints := breakPoints p; loader := loader p; sizes := sizes p;
  otherProps := o |}.

(** The same props with another [height]. *)
Definition with_height (h : value) (p : Props) : Props := {|
  image := image p; isFluid := isFluid p; objectFit := objectFit p;
  maxWidth := maxWidth p; width := width p; height := h;
  aspectRatio := aspectRatio p; alt := alt p; className := className p;
  breakPoints := breakPoints p; loader := loader p; sizes := sizes p;
  otherProps := otherProps p |}.

(** The same props with a [loader]. *)
Definition with_loader (l : option string) (p : Props) : Props := {|
  image := image p; isFluid := isFluid p; objectFit := objectFit p;
  maxWidth := maxWidth p; width := width p; height := height p;
  aspectRatio := aspectRatio p; alt := alt p; className := className p;
  breakPoints := breakPoints p; loader := l; sizes := sizes p;
  otherProps := otherProps p |}.

(** An instance whose final image has loaded. *)
Definition shown : Hooks := {| show := true; inView := true |}.

(** Two source sets put one after the other: the separator goes between
    them when neither is empty. *)
Definition glue (s1 s2 : string) : string :=
  if nonempty s1 then (if nonempty s2 then s1 +:+ ", " +:+ s2 else s1)
  else s2.

(** The tiny placeholder of the asset, the empty string when it has
    none. *)
Definition placeholder_src (a : Asset) : string :=
  match lqip (metadata_of a) with
  | Given s => s
  | _ => ""
  end.

(** [dimensions.aspectRatio] as the component reads it, through the
    defaults [metadata = {}] and [dimensions = {}]: [None] when
    [dimensions] is [null] and the read throws. *)
Definition intrinsic_aspectRatio (a : Asset) : option value :=
  aspectRatio_value <$> dimensions_of a.

(** A photo whose asset carries no [extension] and no [metadata]. *)
Definition bare : Asset := {|
  _ref := Some "image-ghi";
  _id := None;
  url := None;
  extension := None;
  mimeType := None;
  metadata := Omitted |}.

(** An asset whose [_ref] and [_id] are empty strings. *)
Definition blank : Asset := {|
  _ref := Some ""; _id := Some ""; url := None; extension := Some "jpg";
  mimeType := None; metadata := Omitted |}.

(** The same props with another [width]. *)
Definition with_width_prop (w : value) (p : Props) : Props := {|
  image := image p; isFluid := isFluid p; objectFit := objectFit p;
  maxWidth := maxWidth p; width := w; height := height p;
  aspectRatio := aspectRatio p; alt := alt p; className := className p;
  breakPoints := breakPoints p; loader := loader p; sizes := sizes p;
  otherProps := otherProps p |}.

(** The same props with another [className] and [objectFit]. *)
Definition styled (c : option string) (fit : string) (p : Props) : Props := {|
  image := image p; isFluid := isFluid p; objectFit := fit;
  maxWidth := maxWidth p; width := width p; height := height p;
  aspectRatio := aspectRatio p; alt := alt p; className := c;
  breakPoints := breakPoints p; loader := loader p; sizes := sizes p;
  otherProps := otherProps p |}.

(** [<PictureAsset image={photo} isFluid className="hero"
    objectFit="fill" />]. *)
Definition hero_photo : Props := styled (Some "hero") "fill" fluid_photo.

(** The same asset with [metadata: null], as a query returns it for an
    asset without metadata. *)
Definition null_metadata (a : Asset) : Asset := {|
  _ref := _ref a; _id := _id a; url := url a; extension := extension a;
  mimeType := mimeType a; metadata := Null |}.

(** The same props with another [breakPoints]. *)
Definition with_breakPoints (b : optional (list float)) (p : Props) : Props := {|
  image := image p; isFluid := isFluid p; objectFit := objectFit p;
  maxWidth := maxWidth p; width := width p; height := height p;
  aspectRatio := aspectRatio p; alt := alt p; className := className p;
  breakPoints := b; loader := loader p; sizes := sizes p;
  otherProps := otherProps p |}.

(** A photo whose [metadata] has [dimensions: null], and one whose
    [dimensions] has [aspectRatio: null]. *)
Definition null_dimensions : Asset := {|
  _ref := Some "image-jkl";
  _id := None;
  url := None;
  extension := Some "jpg";
  mimeType := Some "image/jpeg";
  metadata := Given {| lqip := Null; dimensions := Null |} |}.

Definition null_ratio : Asset := {|
  _ref := Some "image-mno";
  _id := None;
  url := None;
  extension := Some "jpg";
  mimeType := Some "image/jpeg";
  metadata := Given {|
    lqip := Omitted;
    dimensions := Given {| dim_aspectRatio := Null |} |} |}.

(** [<PictureAsset image={photo} width={0} height="" />],
    [<PictureAsset image={photo} width="400" />],
    [<PictureAsset image={bare} width={400} />] and
    [<PictureAsset image={photo} isFluid loader={spinner} />]. *)
Definition unsized_photo : Props :=
  with_height (VStr "") (with_width_prop (VNum 0) (props_of photo)).
Definition string_photo : Props := with_width_prop (VStr "400") (props_of photo).
Definition fixed_bare : Props := fixed 400 (props_of bare).
Definition loading_photo : Props := with_loader (Some "spinner") fluid_photo.

(** ** Proof steps *)

(** Runs the component's guards on an accepted asset, leaving the
    vector/raster test. *)
Ltac enter_component Hacc :=
  let Himg := fresh "Himg" in
  let Hasset := fresh "Hasset" in
  let Hid := fresh "Hid" in
  let Hmeta := fresh "Hmeta" in
  let Hsz := fresh "Hsz" in
  let Hm := fresh "Hm" in
  destruct Hacc as [Himg Hasset Hid Hmeta Hsz];
  unfold rendered, PictureAsset;
  rewrite Himg; unfold mbind, M_bind, mret, M_ret; cbn [outcome console];
  rewrite Hasset;
  match goal with a : Asset |- _ =>
    fold (resolvable a);
    assert (Hm : defaulted empty_metadata (metadata a) = Some (metadata_of a))
      by (unfold metadata_of; destruct (metadata a); done);
    rewrite Hm; clear Hm;
    change (defaulted empty_dimensions (dimensions (metadata_of a)))
      with (dimensions_of a)
  end;
  rewrite Hid; cbn [negb outcome console];
  unfold sized in Hsz;
  match goal with
  | |- context [negb (isFluid ?p) && negb (truthy (width ?p)) && negb (truthy (height ?p))] =>
      replace (negb (isFluid p) && negb (truthy (width p)) && negb (truthy (height p)))
        with false
        by (destruct (isFluid p), (truthy (width p)), (truthy (height p)); done)
  end.

(** The same, into the raster branch: the breakpoints are an array. *)
Ltac enter_raster Hr :=
  let Hacc := fresh "Hacc" in
  let Hext := fresh "Hext" in
  let Hbp := fresh "Hbp" in
  let Hdim := fresh "Hdim" in
  let Hb := fresh "Hb" in
  destruct Hr as [Hacc Hext Hbp Hdim];
  enter_component Hacc;
  rewrite bool_decide_false by done;
  match goal with props : Props |- _ =>
    assert (Hb : defaulted defaultBreakpoints (breakPoints props)
                 = Some (break_points props))
      by (unfold break_points; destruct (breakPoints props); done);
    rewrite Hb; clear Hb
  end;
  unfold call_breakPointsToString, mret, M_ret; cbn [outcome console];
  unfold dimensions_readable, reads_dimensions in Hdim.

(** Splits a raster render by what it reads: the mode, whether [height]
    and the [aspectRatio] option are truthy, whether [dimensions] is an
    object. The cases that would read a [null] [dimensions] are none of
    a raster render. *)
Ltac raster_cases props a :=
  match goal with
  | Hdim : match dimensions_of a with Some _ => _ | None => _ end = true |- _ =>
      destruct (isFluid props) eqn:?,
               (truthy (height props)) eqn:?,
               (truthy (of_number (aspectRatio props))) eqn:?,
               (dimensions_of a) eqn:?;
      try discriminate Hdim;
      cbn [read_aspectRatio negb outcome console];
      unfold mret, M_ret; cbn [outcome console]
  end.

(** ** Array join *)

Lemma append_cons c (s t : string) : String c s +:+ t = String c (s +:+ t).
Proof. reflexivity. Qed.

Lemma append_nil_r (s : string) : s +:+ "" = s.
Proof.
  induction s as [|c s IH]; [done|]. by rewrite append_cons, IH.
Qed.

Lemma append_assoc (s t u : string) : (s +:+ t) +:+ u = s +:+ t +:+ u.
Proof.
  induction s as [|c s IH]; [done|]. by rewrite !append_cons, IH.
Qed.

Lemma join_from_next sep R k O :
  join_from sep R (S k) O = R +:+ join_from sep "" 1 O.
Proof.
  revert R k. induction O as [|x O IH]; intros R k.
  - simpl. by rewrite append_nil_r.
  - change (join_from sep R (S k) (x :: O))
      with (join_from sep ((R +:+ sep) +:+ x) (S (S k)) O).
    change (join_from sep "" 1 (x :: O))
      with (join_from sep (sep +:+ x) 2 O).
    rewrite (IH ((R +:+ sep) +:+ x)), (IH (sep +:+ x)).
    by rewrite !append_assoc.
Qed.

Lemma join_cons x O sep :
  join (x :: O) sep = x +:+ join_from sep "" 1 O.
Proof. apply (join_from_next sep x 0 O). Qed.

Lemma join_from_one_cons sep x O :
  join_from sep "" 1 (x :: O) = sep +:+ join (x :: O) sep.
Proof.
  change (join_from sep "" 1 (x :: O)) with (join_from sep (sep +:+ x) 2 O).
  by rewrite join_from_next, join_cons, append_assoc.
Qed.

(** The loop of [join] computes the separated concatenation. *)
Lemma join_concat O sep : join O sep = String.concat sep O.
Proof.
  induction O as [|x O IH]; [done|].
  rewrite join_cons. destruct O as [|y O].
  - apply append_nil_r.
  - rewrite join_from_one_cons, IH. reflexivity.
Qed.

Lemma retained_filter W bps :
  retained W bps (List.filter (λ b, PrimFloat.leb b W) bps).
Proof.
  induction bps as [|b bps IH]; simpl; [constructor|].
  destruct (PrimFloat.leb b W) eqn:E; by constructor.
Qed.

Lemma retained_functional W bps k1 k2 :
  retained W bps k1 → retained W bps k2 → k1 = k2.
Proof.
  intros H1. revert k2.
  induction H1; intros k2 H2; inversion H2; subst; try congruence.
  - f_equal. auto.
  - auto.
Qed.

Lemma retained_none W bps :
  Forall (λ b, PrimFloat.leb b W = false) bps → retained W bps [].
Proof. induction 1; by constructor. Qed.

(** C1. The source set of [breakPointsToString] lists exactly the
    breakpoints that are at most the width ceiling, in their input order,
    each as ["<url> <b>w"] with the builder's URL for that width and
    format, joined by [", "]; it is the empty string when no breakpoint is
    at most the ceiling. *)
Theorem breakPointsToString_source_set `{Host}
    (image : Image) (format : string) (W : float) (bps : list float) :
  let result := breakPointsToString image (Some format) (Some W) (Some bps) in
  (∃ kept, retained W bps kept ∧
     result = String.concat ", " (map (descriptor image format) kept))
  ∧ (∀ kept, retained W bps kept →
       result = String.concat ", " (map (descriptor image format) kept))
  ∧ (Forall (λ b, PrimFloat.leb b W = false) bps → result = "").
Proof.
  intros result.
  assert (Hres : ∀ kept, retained W bps kept →
    result = String.concat ", " (map (descriptor image format) kept)).
  { intros kept Hk.
    rewrite (retained_functional _ _ _ _ Hk (retained_filter W bps)).
    subst result. unfold breakPointsToString. simpl. apply join_concat. }
  split; [|split].
  - eexists. split; [apply retained_filter | apply Hres, retained_filter].
  - exact Hres.
  - intros Hnone. by rewrite (Hres [] (retained_none _ _ Hnone)).
Qed.

(** ** The component, path by path *)

Section Paths.

Context {host : Host}.

Lemma null_or_not {A} (o : optional A) : o = Null ∨ o ≠ Null.
Proof. destruct o; auto. Qed.

Lemma PictureAsset_omitted props hooks :
  image props = Omitted →
  PictureAsset props hooks = Run [invalid_asset_message] (Returned None).
Proof. intros Himg. unfold PictureAsset. by rewrite Himg. Qed.

Lemma PictureAsset_no_asset props hooks img :
  image props = Given img → asset img = None →
  PictureAsset props hooks = Run [invalid_asset_message] (Returned None).
Proof.
  intros Himg Hasset. unfold PictureAsset. rewrite Himg.
  unfold mbind, M_bind, mret, M_ret. cbn [outcome console]. by rewrite Hasset.
Qed.

Lemma PictureAsset_unresolvable props hooks img a :
  image props = Given img → asset img = Some a → resolvable a = false →
  PictureAsset props hooks = Run [invalid_asset_message] (Returned None).
Proof.
  intros Himg Hasset Hid. unfold PictureAsset. rewrite Himg.
  unfold mbind, M_bind, mret, M_ret. cbn [outcome console]. rewrite Hasset.
  fold (resolvable a). by rewrite Hid.
Qed.

Lemma PictureAsset_null_metadata props hooks img a :
  image props = Given img → asset img = Some a → resolvable a = true →
  metadata a = Null →
  PictureAsset props hooks =
    Run [] (Thrown (TypeError
      "Cannot destructure property 'lqip' of 'metadata' as it is null.")).
Proof.
  intros Himg Hasset Hid Hmeta. unfold PictureAsset. rewrite Himg.
  unfold mbind, M_bind, mret, M_ret. cbn [outcome console]. rewrite Hasset.
  fold (resolvable a). by rewrite Hid, Hmeta.
Qed.

Lemma PictureAsset_unsized props hooks img a :
  image props = Given img → asset img = Some a → resolvable a = true →
  metadata a ≠ Null → sized props = false →
  PictureAsset props hooks = Run [] (Thrown (Error missing_sizing_message)).
Proof.
  intros Himg Hasset Hid Hmeta Hsz. unfold PictureAsset. rewrite Himg.
  unfold mbind, M_bind, mret, M_ret. cbn [outcome console]. rewrite Hasset.
  fold (resolvable a). rewrite Hid. cbn [negb].
  unfold sized in Hsz.
  destruct (metadata a); [|done|];
    destruct (isFluid props), (truthy (width props)), (truthy (height props));
    done.
Qed.

Lemma PictureAsset_svg props hooks img a :
  accepted props img a → extension a = Some "svg" →
  PictureAsset props hooks = Run [] (Returned (Some (plain_image props a))).
Proof.
  intros Hacc Hext. enter_component Hacc. by rewrite bool_decide_true.
Qed.

(** Past the guards and off the vector branch, a [null] [breakPoints] or
    a read of a [null] [dimensions] throws. *)
Lemma PictureAsset_unrendered props hooks img a :
  accepted props img a → extension a ≠ Some "svg" →
  breakPoints props = Null ∨ dimensions_readable props a = false →
  ∃ message, PictureAsset props hooks = Run [] (Thrown (TypeError message)).
Proof.
  intros Hacc Hext Hnull. enter_component Hacc.
  rewrite bool_decide_false by done.
  unfold dimensions_readable, reads_dimensions in Hnull.
  unfold call_breakPointsToString, read_aspectRatio, mret, M_ret.
  destruct (isFluid props), (truthy (height props)),
           (truthy (of_number (aspectRatio props))),
           (dimensions_of a), (breakPoints props);
    cbn [defaulted outcome console negb] in *;
    first [ eexists; reflexivity | destruct Hnull; discriminate ].
Qed.

(** Every way the component can end: nothing on screen (it returned
    [null] or threw), the vector image, or the raster branch. *)
Lemma paths props :
  (∀ hooks, rendered props hooks = NFalse)
  ∨ (∃ img a, accepted props img a ∧ extension a = Some "svg")
  ∨ (∃ img a, raster props img a).
Proof.
  destruct (image props) as [| |img] eqn:Himg.
  - left. intros hooks. unfold rendered. by rewrite PictureAsset_omitted.
  - left. intros hooks. unfold rendered, PictureAsset. by rewrite Himg.
  - destruct (asset img) as [a|] eqn:Hasset.
    2: { left. intros hooks. unfold rendered.
         by rewrite (PictureAsset_no_asset _ _ img). }
    destruct (resolvable a) eqn:Hid.
    2: { left. intros hooks. unfold rendered.
         by rewrite (PictureAsset_unresolvable _ _ img a). }
    destruct (null_or_not (metadata a)) as [Hmeta|Hmeta].
    { left. intros hooks. unfold rendered.
      by rewrite (PictureAsset_null_metadata _ _ img a). }
    destruct (sized props) eqn:Hsz.
    2: { left. intros hooks. unfold rendered.
         by rewrite (PictureAsset_unsized _ _ img a). }
    assert (Hacc : accepted props img a) by done.
    destruct (decide (extension a = Some "svg")) as [Hext|Hext].
    { right. left. eauto. }
    destruct (null_or_not (breakPoints props)) as [Hbp|Hbp].
    { left. intros hooks. unfold rendered.
      destruct (PictureAsset_unrendered props hooks img a Hacc Hext)
        as [message ->]; auto. }
    destruct (dimensions_readable props a) eqn:Hdim.
    + right. right. exists img, a. done.
    + left. intros hooks. unfold rendered.
      destruct (PictureAsset_unrendered props hooks img a Hacc Hext)
        as [message ->]; auto.
Qed.

(** *** The raster branch *)

(** Without a [null] in [breakPoints] and [dimensions], every accepted
    asset that is not a vector image is rendered. *)
Lemma raster_without_null props img a :
  accepted props img a → extension a ≠ Some "svg" →
  breakPoints props ≠ Null → dimensions (metadata_of a) ≠ Null →
  raster props img a.
Proof.
  intros Hacc Hext Hbp Hd. split; try done.
  unfold dimensions_readable, dimensions_of.
  by destruct (dimensions (metadata_of a)).
Qed.

Lemma raster_observed props hooks img a :
  raster props img a → observed (rendered props hooks) = true.
Proof.
  intros Hr. enter_raster Hr.
  raster_cases props a; destruct (loader props), (inView hooks); reflexivity.
Qed.

Lemma raster_hidden props hooks img a :
  raster props img a → inView hooks = false →
  tagged "source" (rendered props hooks) = []
  ∧ in_picture (rendered props hooks) = []
  ∧ onLoad_handlers (rendered props hooks) = [].
Proof.
  intros Hr Hv. enter_raster Hr. rewrite Hv.
  raster_cases props a; destruct (loader props); done.
Qed.

Lemma raster_visible props hooks img a :
  raster props img a → inView hooks = true →
  fst <$> in_picture (rendered props hooks) = ["source"; "source"; "img"]
  ∧ onLoad_handlers (rendered props hooks) = [SetShow true].
Proof.
  intros Hr Hv. enter_raster Hr. rewrite Hv.
  raster_cases props a; destruct (loader props); done.
Qed.

Lemma raster_srcSets props hooks img a :
  raster props img a → inView hooks = true →
  let bps := break_points props in
  let webp :=
    breakPointsToString img (Some "webp") (Some (width_ceiling props)) (Some bps) in
  let native :=
    breakPointsToString img (extension a) (Some (width_ceiling props)) (Some bps) in
  (λ e, (e.1, e.2 !! "srcSet")) <$> in_picture (rendered props hooks) =
    [ ("source", Some (AVal (VStr webp)));
      ("source", Some (AVal (VStr native)));
      ("img", Some (AVal (VStr native))) ].
Proof.
  intros Hr Hv. enter_raster Hr. rewrite Hv.
  unfold width_ceiling, rendered_width, max_width.
  raster_cases props a; destruct (loader props); reflexivity.
Qed.

Lemma raster_fixed_width props hooks img a :
  raster props img a → isFluid props = false →
  box_style (rendered props hooks) !! "width" = Some (VNum (rendered_width props)).
Proof.
  intros Hr Hf. enter_raster Hr.
  unfold rendered_width, max_width.
  raster_cases props a; try discriminate; destruct (width props); reflexivity.
Qed.

Lemma raster_src props hooks img a :
  raster props img a → inView hooks = true →
  (λ m, m !! "src") <$> final_image (rendered props hooks) =
    [ Some (AVal (VStr (builder_url
        {| b_source := img; b_width := Some (max_width props); b_format := None |}))) ].
Proof.
  intros Hr Hv. enter_raster Hr. rewrite Hv.
  raster_cases props a; destruct (loader props); reflexivity.
Qed.

Lemma raster_reservations props hooks img a :
  raster props img a →
  reservations (rendered props hooks) =
    if isFluid props then
      [ VStr (Number_toString (100 / truthy_ratio props a) +:+ "%") ]
    else [].
Proof.
  intros Hr. enter_raster Hr.
  unfold truthy_ratio, intrinsic_ratio.
  raster_cases props a;
    destruct (aspectRatio props) as [r|]; cbn [of_number truthy] in *;
    try match goal with H : truthy_number _ = _ |- _ => rewrite H end;
    try discriminate;
    unfold aspectRatio_value;
    try match goal with d : Dimensions |- _ => destruct (dim_aspectRatio d) end;
    destruct (loader props), (inView hooks); reflexivity.
Qed.

(** *** The vector branch *)

Lemma plain_image_lookup props a (k : string) :
  ((pass <$> otherProps props) ∪ plain_attributes props a) !! k =
    match otherProps props !! k with
    | Some p => Some (pass p)
    | None => plain_attributes props a !! k
    end.
Proof.
  rewrite lookup_union, lookup_fmap.
  destruct (otherProps props !! k); simpl.
  - by destruct (plain_attributes props a !! k).
  - apply (left_id_L None (∪)).
Qed.

Lemma svg_screen props hooks img a :
  accepted props img a → extension a = Some "svg" →
  tagged "source" (rendered props hooks) = []
  ∧ in_picture (rendered props hooks) = []
  ∧ onLoad_handlers (rendered props hooks) = []
  ∧ observed (rendered props hooks) = false.
Proof.
  intros Hacc Hext. unfold rendered.
  rewrite (PictureAsset_svg _ _ _ _ Hacc Hext). cbn [outcome].
  split; [done|]. split; [done|].
  unfold onLoad_handlers, observed, plain_image.
  cbn [elements flat_map app omap list_omap existsb snd].
  rewrite !plain_image_lookup.
  destruct (otherProps props !! "onLoad") as [[]|],
           (otherProps props !! "ref") as [[]|]; done.
Qed.

End Paths.

(** ** The life of an instance *)

Section Lifecycle.

Context {host : Host}.

Lemma run_actions_inView acts hooks :
  inView (foldr run_action hooks acts) = inView hooks.
Proof. induction acts as [|[b] acts IH]; [done | exact IH]. Qed.

Lemma run_actions_show acts hooks :
  Forall (λ a, a = SetShow true) acts →
  foldr run_action hooks acts =
    match acts with
    | [] => hooks
    | _ :: _ => {| show := true; inView := inView hooks |}
    end.
Proof.
  induction 1 as [|a acts -> _ IH]; [done|].
  cbn [foldr run_action]. by rewrite run_actions_inView.
Qed.

(** Whatever is on screen, the only thing an [onLoad] handler does is
    [setShow(true)]. *)
Lemma handlers_set_show props hooks :
  Forall (λ a, a = SetShow true) (onLoad_handlers (rendered props hooks)).
Proof.
  destruct (paths props) as [Hnull | [(img & a & Hacc & Hext) | (img & a & Hr)]].
  - rewrite Hnull. constructor.
  - destruct (svg_screen props hooks img a Hacc Hext) as (_ & _ & -> & _).
    constructor.
  - destruct (inView hooks) eqn:Hv.
    + destruct (raster_visible props hooks img a Hr Hv) as [_ ->].
      by repeat constructor.
    + destruct (raster_hidden props hooks img a Hr Hv) as (_ & _ & ->).
      constructor.
Qed.

(** The handlers are those of the final image: there is one when the
    final image is on screen, and none otherwise. *)
Lemma handlers_final_image props hooks :
  final_image (rendered props hooks) ≠ [] →
  onLoad_handlers (rendered props hooks) = [SetShow true].
Proof.
  destruct (paths props) as [Hnull | [(img & a & Hacc & Hext) | (img & a & Hr)]].
  - by rewrite Hnull.
  - destruct (svg_screen props hooks img a Hacc Hext) as (_ & Hp & _ & _).
    unfold final_image. by rewrite Hp.
  - destruct (inView hooks) eqn:Hv.
    + by destruct (raster_visible props hooks img a Hr Hv) as [_ ->].
    + destruct (raster_hidden props hooks img a Hr Hv) as (_ & Hp & _).
      unfold final_image. by rewrite Hp.
Qed.

Lemma step_inView props hooks e :
  inView hooks = true → inView (step props hooks e) = true.
Proof.
  intros Hv. destruct e as [intersecting|]; unfold step.
  - unfold observer_report. rewrite Hv. by destruct (observed _).
  - by rewrite run_actions_inView.
Qed.

Lemma step_show props hooks e :
  show hooks = true → show (step props hooks e) = true.
Proof.
  intros Hs. destruct e as [intersecting|]; unfold step.
  - unfold observer_report.
    by destruct (observed _), (inView hooks).
  - rewrite (run_actions_show _ _ (handlers_set_show props hooks)).
    by destruct (onLoad_handlers _).
Qed.

Lemma lifetime_inView trace hooks :
  inView hooks = true → inView (lifetime trace hooks) = true.
Proof.
  revert hooks. induction trace as [|[props e] trace IH]; intros hooks Hv;
    [done|].
  apply IH, step_inView, Hv.
Qed.

Lemma lifetime_show trace hooks :
  show hooks = true → show (lifetime trace hooks) = true.
Proof.
  revert hooks. induction trace as [|[props e] trace IH]; intros hooks Hs;
    [done|].
  apply IH, step_show, Hs.
Qed.

Lemma load_when_shown props hooks :
  show hooks = true → step props hooks Load = hooks.
Proof.
  intros Hs. unfold step.
  rewrite (run_actions_show _ _ (handlers_set_show props hooks)).
  destruct (onLoad_handlers _); [done|].
  destruct hooks as [s v]. simpl in Hs. by subst.
Qed.

Lemma hidden_screen props hooks :
  inView hooks = false →
  tagged "source" (rendered props hooks) = []
  ∧ in_picture (rendered props hooks) = [].
Proof.
  intros Hv.
  destruct (paths props) as [Hnull | [(img & a & Hacc & Hext) | (img & a & Hr)]].
  - by rewrite Hnull.
  - by destruct (svg_screen props hooks img a Hacc Hext) as (-> & -> & _).
  - by destruct (raster_hidden props hooks img a Hr Hv) as (-> & -> & _).
Qed.

End Lifecycle.

(** ** The visibility gate and the reveal state *)

(** C2. A fresh instance is not visible. While it is not visible no
    [<source>] is on screen and [<picture>] is empty, and reports of no
    intersection and load events leave it so. After the observer's first
    report of an intersection on a raster render the instance is visible
    for every continuation of its life, and every raster render then has
    the two format sources and the final image inside [<picture>]. *)
Theorem visibility_gate `{Host} :
  inView mount = false
  ∧ (∀ props hooks, inView hooks = false →
       tagged "source" (rendered props hooks) = []
       ∧ in_picture (rendered props hooks) = []
       ∧ inView (step props hooks (Visibility false)) = false
       ∧ inView (step props hooks Load) = false)
  ∧ (∀ props img a hooks trace props' img' a',
       raster props img a → raster props' img' a' →
       let hooks' := lifetime trace (step props hooks (Visibility true)) in
       inView hooks' = true
       ∧ fst <$> in_picture (rendered props' hooks') =
           ["source"; "source"; "img"]).
Proof.
  split; [done|]. split.
  - intros props hooks Hv.
    destruct (hidden_screen props hooks Hv) as [-> ->].
    repeat split.
    + unfold step, observer_report. rewrite Hv. by destruct (observed _).
    + unfold step. by rewrite run_actions_inView.
  - intros props img a hooks trace props' img' a' Hr Hr' hooks'.
    assert (Hv : inView hooks' = true).
    { apply lifetime_inView. unfold step, observer_report.
      rewrite (raster_observed props hooks img a Hr).
      by destruct (inView hooks) eqn:E. }
    split; [done|].
    by destruct (raster_visible props' hooks' img' a' Hr' Hv) as [-> _].
Qed.

(** C3. A fresh instance is hidden. The load event of the final image
    shows it; on a shown instance a load event changes nothing; a shown
    instance stays shown for every continuation of its life; and the
    observer's reports never touch the reveal state. *)
Theorem reveal_state `{Host} :
  show mount = false
  ∧ (∀ props hooks, final_image (rendered props hooks) ≠ [] →
       show (step props hooks Load) = true)
  ∧ (∀ props hooks, show hooks = true → step props hooks Load = hooks)
  ∧ (∀ trace hooks, show hooks = true → show (lifetime trace hooks) = true)
  ∧ (∀ props hooks intersecting,
       show (step props hooks (Visibility intersecting)) = show hooks).
Proof.
  split; [done|]. split; [|split; [|split]].
  - intros props hooks Himg. unfold step.
    by rewrite (handlers_final_image props hooks Himg).
  - apply load_when_shown.
  - apply lifetime_show.
  - intros props hooks intersecting. unfold step, observer_report.
    by destruct (observed _), (inView hooks).
Qed.

(** ** The asset-kind dispatch and the guards *)

(** C4, as amended. For a vector asset with a resolvable identity and a
    [metadata] that is not [null]: once [isFluid], [width] or [height] is
    set, the component returns the one plain image whatever the instance
    state, its attributes being the asset's URL as [src], [alt] and
    [className], under the pass-through properties; it has no child, and
    without pass-through [src] and [srcSet] its [src] is the asset's URL
    and it has no [srcSet]. When none of the three is set, the component
    throws the missing-sizing error. *)
Theorem vector_renders_plain_image `{Host} props img a hooks :
  image props = Given img → asset img = Some a → resolvable a = true →
  metadata a ≠ Null → extension a = Some "svg" →
  (sized props = true →
     PictureAsset props hooks = Run [] (Returned (Some (plain_image props a)))
     ∧ elements (plain_image props a) =
         [("img", (pass <$> otherProps props) ∪ plain_attributes props a)]
     ∧ (otherProps props !! "src" = None →
          ((pass <$> otherProps props) ∪ plain_attributes props a) !! "src"
            = Some (AVal (of_string (url a))))
     ∧ (otherProps props !! "srcSet" = None →
          ((pass <$> otherProps props) ∪ plain_attributes props a) !! "srcSet"
            = None))
  ∧ (sized props = false →
       PictureAsset props hooks = Run [] (Thrown (Error missing_sizing_message))).
Proof.
  intros Himg Hasset Hid Hmeta Hext. split.
  - intros Hsz. split; [by apply (PictureAsset_svg _ _ img)|].
    split; [done|].
    split; intros Hk; by rewrite plain_image_lookup, Hk.
  - intros Hsz. by apply (PictureAsset_unsized _ _ img a).
Qed.

(** C5, as amended. With a resolvable asset whose [metadata] is not
    [null], [isFluid] not set and neither [width] nor [height] supplied,
    the component throws the missing-sizing error, whatever the asset's
    extension. *)
Theorem missing_sizing_throws `{Host} props img a hooks :
  image props = Given img → asset img = Some a → resolvable a = true →
  metadata a ≠ Null →
  isFluid props = false →
  supplied (width props) = false → supplied (height props) = false →
  PictureAsset props hooks = Run [] (Thrown (Error missing_sizing_message)).
Proof.
  intros Himg Hasset Hid Hmeta Hf Hw Hh.
  apply (PictureAsset_unsized _ _ img a); try done.
  unfold sized. rewrite Hf.
  by destruct (width props), (height props).
Qed.

(** C9. An asset that carries neither [_ref] nor [_id] makes the
    component log the invalid-asset error and return [null], without
    throwing, whatever the other props and the instance state. *)
Theorem unresolvable_asset_renders_null `{Host} props img a hooks :
  image props = Given img → asset img = Some a →
  _ref a = None → _id a = None →
  PictureAsset props hooks = Run [invalid_asset_message] (Returned None).
Proof.
  intros Himg Hasset Href Hid.
  apply (PictureAsset_unresolvable _ _ img a); try done.
  unfold resolvable. by rewrite Href, Hid.
Qed.

(** C10. With [image] left out, or passed without an [asset] field, the
    component logs the invalid-asset error and returns [null]: no field
    access throws, the result is that of an asset without [_ref] and
    [_id], and it is so also when no sizing is configured, the sizing
    guard coming later. *)
Theorem missing_image_renders_null `{Host} props hooks :
  image props = Omitted ∨ (∃ img, image props = Given img ∧ asset img = None) →
  PictureAsset props hooks = Run [invalid_asset_message] (Returned None)
  ∧ PictureAsset props hooks =
      PictureAsset (with_image (Given {| asset := Some anonymous |}) props) hooks
  ∧ (sized props = false →
       outcome (PictureAsset props hooks) = Returned None).
Proof.
  intros Himage.
  assert (Hnull :
    PictureAsset props hooks = Run [invalid_asset_message] (Returned None)).
  { destruct Himage as [Himg | (img & Himg & Hasset)].
    - by apply PictureAsset_omitted.
    - by apply (PictureAsset_no_asset _ _ img). }
  split; [done|]. split; [|by rewrite Hnull].
  rewrite Hnull. symmetry.
  by apply (PictureAsset_unresolvable _ _ {| asset := Some anonymous |} anonymous).
Qed.

(** ** Sizing and the derived URLs *)

(** C6. On a raster render that is visible, the modern-format and the
    native-format source sets, and the final image's [srcSet], are
    [breakPointsToString] of the breakpoints under [maxWidth] in fluid
    mode, and under the rendered width in fixed mode, which is [width]
    when it is a number and [maxWidth] otherwise and is the width given
    to the box. *)
Theorem source_sets_width_ceiling `{Host} props img a hooks :
  raster props img a → inView hooks = true →
  let bps := break_points props in
  let source_sets W :=
    [ ("source", Some (AVal (VStr
         (breakPointsToString img (Some "webp") (Some W) (Some bps)))));
      ("source", Some (AVal (VStr
         (breakPointsToString img (extension a) (Some W) (Some bps)))));
      ("img", Some (AVal (VStr
         (breakPointsToString img (extension a) (Some W) (Some bps))))) ] in
  let on_screen :=
    (λ e, (e.1, e.2 !! "srcSet")) <$> in_picture (rendered props hooks) in
  (isFluid props = true → on_screen = source_sets (max_width props))
  ∧ (isFluid props = false →
       on_screen = source_sets (rendered_width props)
       ∧ box_style (rendered props hooks) !! "width"
           = Some (VNum (rendered_width props))
       ∧ rendered_width props =
           match width props with
           | VNum w => w
           | _ => max_width props
           end).
Proof.
  intros Hr Hv bps source_sets on_screen.
  pose proof (raster_srcSets props hooks img a Hr Hv) as Hsets.
  unfold width_ceiling in Hsets. split; intros Hf; rewrite Hf in Hsets.
  - exact Hsets.
  - split; [exact Hsets|]. split; [|done].
    by apply (raster_fixed_width _ _ img a).
Qed.

(** C7, as amended. On a raster render that is visible, the final
    image's [src] is the one URL the builder gives for the width
    [maxWidth], no format being requested, in fluid and in fixed mode
    alike; in fluid mode [maxWidth] is the active width ceiling. *)
Theorem fallback_src_at_max_width `{Host} props img a hooks :
  raster props img a → inView hooks = true →
  (λ m, m !! "src") <$> final_image (rendered props hooks) =
    [ Some (AVal (VStr (builder_url
        {| b_source := img;
           b_width := Some (max_width props);
           b_format := None |}))) ]
  ∧ (isFluid props = true → max_width props = width_ceiling props).
Proof.
  intros Hr Hv. split; [by apply (raster_src _ _ img a)|].
  intros Hf. unfold width_ceiling. by rewrite Hf.
Qed.

(** C8, as amended. On a fluid raster render the spacer reserves
    [100 / r] percent, [r] being the [aspectRatio] option when it is
    supplied and truthy (neither [0] nor [NaN]) and the asset's
    [dimensions.aspectRatio] otherwise; with [aspectRatio] unset and an
    intrinsic ratio of [0.5] that is the print of [200] followed by the
    percent sign. *)
Theorem spacer_reservation `{Host} props img a hooks :
  raster props img a → isFluid props = true →
  reservations (rendered props hooks) =
    [ VStr (Number_toString (100 / truthy_ratio props a) +:+ "%") ]
  ∧ (∀ r, aspectRatio props = Some r → truthy_number r = true →
       truthy_ratio props a = r)
  ∧ (aspectRatio props = None → truthy_ratio props a = intrinsic_ratio a)
  ∧ (aspectRatio props = None → intrinsic_ratio a = 0.5 →
       reservations (rendered props hooks) =
         [ VStr (Number_toString 200 +:+ "%") ]).
Proof.
  intros Hr Hf.
  pose proof (raster_reservations props hooks img a Hr) as Hres.
  rewrite Hf in Hres. split; [done|]. unfold truthy_ratio in *.
  split; [|split].
  - intros r -> Ht. by rewrite Ht.
  - by intros ->.
  - intros Hnone Hhalf. rewrite Hres, Hnone, Hhalf. reflexivity.
Qed.

(** ** The component at work *)

Lemma fluid_photo_raster : raster fluid_photo (image_of photo) photo.
Proof. by repeat split. Qed.

Lemma fixed_photo_raster : raster fixed_photo (image_of photo) photo.
Proof. by repeat split. Qed.

Lemma fluid_logo_accepted :
  accepted (fluid (props_of logo)) (image_of logo) logo.
Proof. by repeat split. Qed.

(** The default breakpoints under a ceiling of 700 are 600 and 400. *)
Example retained_700 : retained 700 defaultBreakpoints [600; 400].
Proof.
  repeat first
    [ apply retained_nil
    | apply retained_keep; [reflexivity|]
    | apply retained_drop; [reflexivity|] ].
Qed.

Example source_set_700 :
  breakPointsToString (host := sample_host) (image_of photo)
    (Some "jpg") (Some 700) None =
  "https://cdn.example/image-abc-2000x1000-jpg?w=600&fm=jpg 600w, https://cdn.example/image-abc-2000x1000-jpg?w=400&fm=jpg 400w".
Proof. reflexivity. Qed.

(** [image={null}] is not covered by the default [image = {}]: reading
    [asset] from it throws. *)
Example null_image_throws :
  outcome (PictureAsset (host := sample_host)
             (with_image Null (props_of photo)) mount) =
    Thrown (TypeError
      "Cannot destructure property 'asset' of 'image' as it is null.").
Proof. reflexivity. Qed.

(** Fixed mode, width 400, intrinsic ratio 2: the box is 400 by 200. *)
Example fixed_photo_box :
  box_style (rendered (host := sample_host) fixed_photo mount) =
    {[ "width" := VNum 400; "height" := VNum 200 ]}.
Proof. reflexivity. Qed.

Lemma breakPointsToString_source_set_witness :
  breakPointsToString (host := sample_host) (image_of photo)
    (Some "jpg") (Some 700) (Some defaultBreakpoints) =
  String.concat ", "
    (map (descriptor (host := sample_host) (image_of photo) "jpg") [600; 400])
  ∧ breakPointsToString (host := sample_host) (image_of photo)
      (Some "jpg") (Some 300) (Some defaultBreakpoints) = "".
Proof.
  split.
  - apply (proj1 (proj2 (@breakPointsToString_source_set sample_host
             (image_of photo) "jpg" 700 defaultBreakpoints))).
    exact retained_700.
  - apply (proj2 (proj2 (@breakPointsToString_source_set sample_host
             (image_of photo) "jpg" 300 defaultBreakpoints))).
    repeat constructor.
Defined.

Lemma visibility_gate_witness :
  let seen := step (host := sample_host) fluid_photo mount (Visibility true) in
  let later :=
    lifetime (host := sample_host)
      [ (fluid_photo, Load); (fixed_photo, Visibility false);
        (fixed_photo, Visibility true) ] seen in
  tagged "source" (rendered (host := sample_host) fluid_photo mount) = []
  ∧ inView later = true
  ∧ fst <$> in_picture (rendered (host := sample_host) fixed_photo later) =
      ["source"; "source"; "img"].
Proof.
  intros seen later.
  destruct (@visibility_gate sample_host) as (Hfresh & Hhidden & Hseen).
  split.
  - exact (proj1 (Hhidden fluid_photo mount Hfresh)).
  - exact (Hseen fluid_photo (image_of photo) photo mount
             [ (fluid_photo, Load); (fixed_photo, Visibility false);
               (fixed_photo, Visibility true) ]
             fixed_photo (image_of photo) photo
             fluid_photo_raster fixed_photo_raster).
Defined.

Lemma reveal_state_witness :
  show (step (host := sample_host) fluid_photo visible Load) = true
  ∧ show (lifetime (host := sample_host)
            [ (fluid_photo, Load); (fixed_photo, Visibility false) ]
            (step (host := sample_host) fluid_photo visible Load)) = true.
Proof.
  destruct (@reveal_state sample_host) as (_ & Hload & _ & Hstays & _).
  assert (Hshown : show (step (host := sample_host) fluid_photo visible Load) = true).
  { apply Hload. vm_compute. discriminate. }
  split; [exact Hshown|]. apply Hstays, Hshown.
Defined.

(** C4, the claim as stated fails twice: a vector asset rendered with
    no sizing prop does not give the plain image, the sizing guard throws
    first; and a vector asset whose [metadata] is [null] does not give it
    either, even in fluid mode, the destructuring of [metadata] throws
    before the vector test. *)
Lemma vector_without_sizing_throws :
  extension logo = Some "svg" ∧ resolvable logo = true
  ∧ PictureAsset (host := sample_host) (props_of logo) mount =
      Run [] (Thrown (Error missing_sizing_message))
  ∧ (¬ ∃ n, outcome (PictureAsset (host := sample_host) (props_of logo) mount)
              = Returned (Some n))
  ∧ extension (null_metadata logo) = Some "svg"
  ∧ resolvable (null_metadata logo) = true
  ∧ PictureAsset (host := sample_host)
      (fluid (props_of (null_metadata logo))) mount =
      Run [] (Thrown (TypeError
        "Cannot destructure property 'lqip' of 'metadata' as it is null.")).
Proof.
  split; [done|]. split; [done|]. split; [reflexivity|].
  split; [|by repeat split].
  intros [n Hn]. vm_compute in Hn. discriminate.
Qed.

Lemma vector_renders_plain_image_witness :
  PictureAsset (host := sample_host) (fluid (props_of logo)) visible =
    Run [] (Returned (Some (Elem "img"
      {[ "src" := AVal (VStr "https://cdn.example/logo.svg");
         "alt" := AVal (VStr "");
         "className" := AVal VNull ]} [])))
  ∧ PictureAsset (host := sample_host) (props_of logo) visible =
      Run [] (Thrown (Error missing_sizing_message)).
Proof.
  assert (Hmeta : metadata logo ≠ Null) by discriminate.
  destruct (@vector_renders_plain_image sample_host
              (fluid (props_of logo)) (image_of logo) logo visible
              eq_refl eq_refl eq_refl Hmeta eq_refl) as [Hsized _].
  destruct (@vector_renders_plain_image sample_host
              (props_of logo) (image_of logo) logo visible
              eq_refl eq_refl eq_refl Hmeta eq_refl) as [_ Hunsized].
  split; [exact (proj1 (Hsized eq_refl)) | exact (Hunsized eq_refl)].
Defined.

(** C5, the claim as stated fails: for a raster asset with a resolvable
    identity and [metadata: null], rendered with no sizing prop, the
    destructuring of [metadata] throws a [TypeError] before the sizing
    guard is reached, and the missing-sizing error is not raised. *)
Lemma null_metadata_preempts_sizing_error :
  extension (null_metadata photo) = Some "jpg"
  ∧ resolvable (null_metadata photo) = true
  ∧ sized (props_of (null_metadata photo)) = false
  ∧ PictureAsset (host := sample_host) (props_of (null_metadata photo)) mount =
      Run [] (Thrown (TypeError
        "Cannot destructure property 'lqip' of 'metadata' as it is null."))
  ∧ PictureAsset (host := sample_host) (props_of (null_metadata photo)) mount ≠
      Run [] (Thrown (Error missing_sizing_message)).
Proof. by repeat split. Qed.

Lemma missing_sizing_throws_witness :
  PictureAsset (host := sample_host) (props_of photo) mount =
    Run [] (Thrown (Error missing_sizing_message)).
Proof.
  apply (@missing_sizing_throws sample_host (props_of photo) (image_of photo)
           photo mount); done.
Defined.

Lemma unresolvable_asset_renders_null_witness :
  PictureAsset (host := sample_host) (fluid (props_of anonymous)) mount =
    Run [invalid_asset_message] (Returned None).
Proof.
  apply (@unresolvable_asset_renders_null sample_host
           (fluid (props_of anonymous)) (image_of anonymous) anonymous mount);
    reflexivity.
Defined.

Lemma missing_image_renders_null_witness :
  PictureAsset (host := sample_host) (with_image Omitted (props_of photo)) mount =
    Run [invalid_asset_message] (Returned None)
  ∧ PictureAsset (host := sample_host)
      (with_image (Given empty_image) (props_of photo)) mount =
    Run [invalid_asset_message] (Returned None).
Proof.
  split.
  - apply (@missing_image_renders_null sample_host
             (with_image Omitted (props_of photo)) mount).
    left. reflexivity.
  - apply (@missing_image_renders_null sample_host
             (with_image (Given empty_image) (props_of photo)) mount).
    right. exists empty_image. split; reflexivity.
Defined.

Lemma fluid_portrait_raster : raster fluid_portrait (image_of portrait) portrait.
Proof. by repeat split. Qed.

Lemma flat_portrait_raster : raster flat_portrait (image_of portrait) portrait.
Proof. by repeat split. Qed.

Lemma source_sets_width_ceiling_witness :
  (λ e, (e.1, e.2 !! "srcSet")) <$>
    in_picture (rendered (host := sample_host) fixed_photo visible) =
  [ ("source", Some (AVal (VStr
       "https://cdn.example/image-abc-2000x1000-jpg?w=400&fm=webp 400w")));
    ("source", Some (AVal (VStr
       "https://cdn.example/image-abc-2000x1000-jpg?w=400&fm=jpg 400w")));
    ("img", Some (AVal (VStr
       "https://cdn.example/image-abc-2000x1000-jpg?w=400&fm=jpg 400w"))) ]
  ∧ length (in_picture (rendered (host := sample_host) fluid_photo visible)) = 3%nat.
Proof.
  split.
  - destruct (@source_sets_width_ceiling sample_host fixed_photo
                (image_of photo) photo visible fixed_photo_raster eq_refl)
      as [_ Hfixed].
    destruct (Hfixed eq_refl) as [Hsets _]. exact Hsets.
  - destruct (@source_sets_width_ceiling sample_host fluid_photo
                (image_of photo) photo visible fluid_photo_raster eq_refl)
      as [Hfluid _].
    pose proof (f_equal length (Hfluid eq_refl)) as Hlen.
    rewrite length_fmap in Hlen. exact Hlen.
Defined.

(** C7, the claim as stated fails: in fixed mode with [width] 400 the
    active width ceiling is 400, and the final image's [src] is the
    builder's URL for 1780, which is not its URL for 400 in any format. *)
Lemma fallback_src_ignores_rendered_width :
  isFluid fixed_photo = false
  ∧ width_ceiling fixed_photo = 400
  ∧ (λ m, m !! "src") <$>
      final_image (rendered (host := sample_host) fixed_photo visible) =
    [ Some (AVal (VStr "https://cdn.example/image-abc-2000x1000-jpg?w=1780")) ]
  ∧ ∀ format,
      "https://cdn.example/image-abc-2000x1000-jpg?w=1780" ≠
      builder_url (Host := sample_host)
        {| b_source := image_of photo;
           b_width := Some (width_ceiling fixed_photo);
           b_format := format |}.
Proof.
  split; [done|]. split; [reflexivity|]. split; [reflexivity|].
  intros [format|]; vm_compute; discriminate.
Qed.

Lemma fallback_src_at_max_width_witness :
  (λ m, m !! "src") <$>
    final_image (rendered (host := sample_host) fluid_photo visible) =
  [ Some (AVal (VStr "https://cdn.example/image-abc-2000x1000-jpg?w=1780")) ].
Proof.
  exact (proj1 (@fallback_src_at_max_width sample_host fluid_photo
                  (image_of photo) photo visible fluid_photo_raster eq_refl)).
Defined.

(** C8, the claim as stated fails: with [aspectRatio] supplied as [0]
    and an intrinsic ratio of [0.5] the spacer reserves [200%], and
    [100] divided by the supplied option is [Infinity]. *)
Lemma zero_aspectRatio_falls_back :
  isFluid flat_portrait = true
  ∧ aspectRatio flat_portrait = Some 0
  ∧ reservations (rendered (host := sample_host) flat_portrait mount) =
      [ VStr "200%" ]
  ∧ 100 / nullish_ratio flat_portrait portrait = infinity
  ∧ reservations (rendered (host := sample_host) flat_portrait mount) ≠
      [ VStr (Number_toString (Host := sample_host)
                (100 / nullish_ratio flat_portrait portrait) +:+ "%") ].
Proof.
  split; [done|]. split; [done|]. split; [reflexivity|]. split; [reflexivity|].
  vm_compute. discriminate.
Qed.

Lemma spacer_reservation_witness :
  reservations (rendered (host := sample_host) fluid_portrait mount) =
    [ VStr "200%" ].
Proof.
  destruct (@spacer_reservation sample_host fluid_portrait
              (image_of portrait) portrait mount fluid_portrait_raster eq_refl)
    as (_ & _ & _ & Hhalf).
  exact (Hhalf eq_refl eq_refl).
Defined.

(** ** Source sets: emptiness, composition, NaN *)

Lemma nonempty_append_l (s t : string) :
  nonempty s = true → nonempty (s +:+ t) = true.
Proof. by destruct s. Qed.

Lemma nonempty_append_r (s t : string) :
  nonempty t = true → nonempty (s +:+ t) = true.
Proof. by destruct s. Qed.

Lemma nonempty_false (s : string) : nonempty s = false ↔ s = "".
Proof. by destruct s. Qed.

Lemma descriptor_nonempty `{Host} img format b :
  nonempty (descriptor img format b) = true.
Proof. unfold descriptor. by apply nonempty_append_r. Qed.

Lemma concat_nonempty sep (l : list string) :
  Forall (λ x, nonempty x = true) l →
  nonempty (String.concat sep l) = bool_decide (l ≠ []).
Proof.
  destruct 1 as [|x l Hx _]; [done|].
  rewrite bool_decide_true by done.
  destruct l; [done|]. by apply nonempty_append_l.
Qed.

Lemma concat_app sep (l1 l2 : list string) :
  l1 ≠ [] → l2 ≠ [] →
  String.concat sep (l1 ++ l2) =
    String.concat sep l1 +:+ sep +:+ String.concat sep l2.
Proof.
  induction l1 as [|x l1 IH]; [done|]. intros _ Hl2.
  destruct l1 as [|y l1].
  - destruct l2; done.
  - change (String.concat sep ((x :: y :: l1) ++ l2))
      with (x +:+ sep +:+ String.concat sep ((y :: l1) ++ l2)).
    rewrite IH by done.
    change (String.concat sep (x :: y :: l1))
      with (x +:+ sep +:+ String.concat sep (y :: l1)).
    by rewrite !append_assoc.
Qed.

Lemma breakPointsToString_concat `{Host} img format W bps :
  breakPointsToString img (Some format) (Some W) (Some bps) =
    String.concat ", "
      (map (descriptor img format) (List.filter (λ b, PrimFloat.leb b W) bps)).
Proof. unfold breakPointsToString. simpl. apply join_concat. Qed.

Lemma descriptors_nonempty `{Host} img format (l : list float) :
  Forall (λ x, nonempty x = true) (map (descriptor img format) l).
Proof.
  induction l; constructor; [apply descriptor_nonempty | done].
Qed.

Lemma filter_nil_Forall W (bps : list float) :
  List.filter (λ b, PrimFloat.leb b W) bps = [] ↔
  Forall (λ b, PrimFloat.leb b W = false) bps.
Proof.
  induction bps as [|b bps IH]; simpl.
  - split; [constructor | done].
  - destruct (PrimFloat.leb b W) eqn:E.
    + split; [done|]. inversion 1; congruence.
    + rewrite IH. split; [by constructor | by inversion 1].
Qed.

(** X1. The source set is the empty string exactly when no breakpoint is
    at most the ceiling: a kept breakpoint always leaves a descriptor,
    whatever URL the builder returns. *)
Theorem source_set_empty_iff `{Host} img format W bps :
  breakPointsToString img (Some format) (Some W) (Some bps) = "" ↔
  Forall (λ b, PrimFloat.leb b W = false) bps.
Proof.
  rewrite breakPointsToString_concat, <- filter_nil_Forall.
  rewrite <- nonempty_false, concat_nonempty by apply descriptors_nonempty.
  destruct (List.filter _ bps); [by rewrite bool_decide_false by naive_solver|].
  by rewrite bool_decide_true.
Qed.

(** X2. The source set of a list of breakpoints in two parts is the
    source sets of the parts, with the separator between them when
    neither is empty. *)
Theorem source_set_app `{Host} img format W bps1 bps2 :
  breakPointsToString img (Some format) (Some W) (Some (bps1 ++ bps2)) =
    glue (breakPointsToString img (Some format) (Some W) (Some bps1))
         (breakPointsToString img (Some format) (Some W) (Some bps2)).
Proof.
  rewrite !breakPointsToString_concat, List.filter_app, map_app. unfold glue.
  rewrite !concat_nonempty by apply descriptors_nonempty.
  destruct (List.filter _ bps1) as [|b1 k1], (List.filter _ bps2) as [|b2 k2];
    try done.
  - by rewrite app_nil_r.
  - by rewrite concat_app.
Qed.

Lemma leb_nan_r (b : float) : PrimFloat.leb b nan = false.
Proof.
  rewrite leb_spec. change (Prim2SF nan) with S754_nan.
  by destruct (Prim2SF b).
Qed.

Lemma leb_nan_l (W : float) : PrimFloat.leb nan W = false.
Proof. rewrite leb_spec. reflexivity. Qed.

(** X3. [NaN] compares with nothing: under a [NaN] ceiling the source
    set is empty whatever the breakpoints, and a [NaN] breakpoint never
    appears in a source set. *)
Theorem source_set_nan `{Host} img format W bps1 bps2 :
  breakPointsToString img (Some format) (Some nan) (Some bps1) = ""
  ∧ breakPointsToString img (Some format) (Some W) (Some (bps1 ++ nan :: bps2)) =
      breakPointsToString img (Some format) (Some W) (Some (bps1 ++ bps2)).
Proof.
  split.
  - rewrite breakPointsToString_concat.
    replace (List.filter _ bps1) with (@nil float); [done|].
    symmetry. apply filter_nil_Forall, Forall_forall. intros b _.
    apply leb_nan_r.
  - rewrite !breakPointsToString_concat, !List.filter_app. simpl.
    by rewrite leb_nan_l.
Qed.

(** ** How the component ends *)

Section Outcomes.

Context {host : Host}.

Lemma PictureAsset_null_image props hooks :
  image props = Null →
  PictureAsset props hooks =
    Run [] (Thrown (TypeError
      "Cannot destructure property 'asset' of 'image' as it is null.")).
Proof. intros Himg. unfold PictureAsset. by rewrite Himg. Qed.

Lemma PictureAsset_raster props hooks img a :
  raster props img a →
  ∃ n, PictureAsset props hooks = Run [] (Returned (Some n)).
Proof.
  intros Hr. enter_raster Hr. raster_cases props a; eexists; reflexivity.
Qed.

Lemma PictureAsset_accepted props hooks img a :
  accepted props img a → extension a = Some "svg" ∨ raster props img a →
  ∃ n, PictureAsset props hooks = Run [] (Returned (Some n)).
Proof.
  intros Hacc [Hext|Hr].
  - eexists. by apply (PictureAsset_svg _ _ img a).
  - by apply (PictureAsset_raster _ _ img a).
Qed.

(** The ways the component ends, each with its cause: [null] with the
    message logged, a [TypeError] from a [null] it reads into, the
    missing-sizing error, or an element. *)
Lemma outcome_cases props hooks :
  ((image props = Omitted
    ∨ ∃ img, image props = Given img
        ∧ (asset img = None ∨ ∃ a, asset img = Some a ∧ resolvable a = false))
   ∧ PictureAsset props hooks = Run [invalid_asset_message] (Returned None))
  ∨ ((image props = Null
      ∨ ∃ img a, image props = Given img ∧ asset img = Some a
          ∧ resolvable a = true
          ∧ (metadata a = Null
             ∨ (accepted props img a ∧ extension a ≠ Some "svg"
                ∧ (breakPoints props = Null
                   ∨ dimensions_readable props a = false))))
     ∧ ∃ message,
         PictureAsset props hooks = Run [] (Thrown (TypeError message)))
  ∨ ((∃ img a, image props = Given img ∧ asset img = Some a
        ∧ resolvable a = true ∧ metadata a ≠ Null ∧ sized props = false)
     ∧ PictureAsset props hooks = Run [] (Thrown (Error missing_sizing_message)))
  ∨ ((∃ img a, accepted props img a
        ∧ (extension a = Some "svg" ∨ raster props img a))
     ∧ ∃ n, PictureAsset props hooks = Run [] (Returned (Some n))).
Proof.
  destruct (image props) as [| |img] eqn:Himg.
  - left. split; [by left|]. by apply PictureAsset_omitted.
  - right. left. split; [by left|]. eexists. by apply PictureAsset_null_image.
  - destruct (asset img) as [a|] eqn:Hasset.
    2: { left. split; [right; eauto|]. by apply (PictureAsset_no_asset _ _ img). }
    destruct (resolvable a) eqn:Hid.
    2: { left. split; [right; eauto 6|].
         by apply (PictureAsset_unresolvable _ _ img a). }
    destruct (null_or_not (metadata a)) as [Hmeta|Hmeta].
    { right. left. split; [right; exists img, a; auto|].
      eexists. by apply (PictureAsset_null_metadata _ _ img a). }
    destruct (sized props) eqn:Hsz.
    2: { right. right. left. split; [exists img, a; auto|].
         by apply (PictureAsset_unsized _ _ img a). }
    assert (Hacc : accepted props img a) by done.
    destruct (decide (extension a = Some "svg")) as [Hext|Hext].
    { right. right. right. split; [exists img, a; auto|].
      eexists. by apply (PictureAsset_svg _ _ img a). }
    destruct (null_or_not (breakPoints props)) as [Hbp|Hbp].
    { right. left. split; [right; exists img, a; auto 10|].
      apply (PictureAsset_unrendered _ _ img a); auto. }
    destruct (dimensions_readable props a) eqn:Hdim.
    + assert (Hr : raster props img a) by done.
      right. right. right. split; [exists img, a; auto|].
      by apply (PictureAsset_raster _ _ img a).
    + right. left. split; [right; exists img, a; auto 10|].
      apply (PictureAsset_unrendered _ _ img a); auto.
Qed.

End Outcomes.

(** X4. The component returns an element exactly when it gets past its
    guards (an image whose asset has a non-empty [_ref] or [_id] and a
    [metadata] that is not [null], with [isFluid], a truthy [width] or a
    truthy [height]) and then either the asset is a vector image, or
    [breakPoints] is not [null] and no property of a [null] [dimensions]
    is read; it then logs nothing. *)
Theorem returns_element_iff_accepted `{Host} props hooks :
  ((∃ n, outcome (PictureAsset props hooks) = Returned (Some n))
   ↔ ∃ img a, accepted props img a
        ∧ (extension a = Some "svg" ∨ raster props img a))
  ∧ ((∃ img a, accepted props img a
        ∧ (extension a = Some "svg" ∨ raster props img a)) →
     console (PictureAsset props hooks) = []).
Proof.
  split; [split|].
  - intros [n Hn].
    destruct (outcome_cases props hooks)
      as [[_ Hrun] | [[_ [e Hrun]] | [[_ Hrun] | [Hacc _]]]];
      try (rewrite Hrun in Hn; discriminate). exact Hacc.
  - intros (img & a & Hacc & Hkind).
    destruct (PictureAsset_accepted props hooks img a Hacc Hkind) as [n ->].
    eauto.
  - intros (img & a & Hacc & Hkind).
    by destruct (PictureAsset_accepted props hooks img a Hacc Hkind) as [n ->].
Qed.

(** X5. The component writes to the console exactly when it returns
    [null], and then it writes the one invalid-asset message: it never
    logs when it throws or when it returns an element. *)
Theorem logs_iff_returns_null `{Host} props hooks :
  (console (PictureAsset props hooks) ≠ []
   ↔ outcome (PictureAsset props hooks) = Returned None)
  ∧ (outcome (PictureAsset props hooks) = Returned None →
       console (PictureAsset props hooks) = [invalid_asset_message]).
Proof.
  destruct (outcome_cases props hooks)
    as [[_ Hrun] | [[_ [e Hrun]] | [[_ Hrun] | [_ [n Hrun]]]]];
    rewrite Hrun; cbn [console outcome]; split; try split; done.
Qed.

(** X6. What the component throws, and when. It throws the
    missing-sizing error exactly when the asset is resolvable, its
    [metadata] is not [null] and no sizing is configured, a [width] or
    [height] of [0], [NaN] or the empty string configuring none. It
    throws a [TypeError] exactly when it reads into a [null]: [image] is
    [null]; or the asset is resolvable and its [metadata] is [null]; or,
    past the guards and off the vector branch, [breakPoints] is [null] or
    a property of a [null] [dimensions] is read. *)
Theorem throws_iff `{Host} props hooks :
  (PictureAsset props hooks = Run [] (Thrown (Error missing_sizing_message))
   ↔ ∃ img a, image props = Given img ∧ asset img = Some a
        ∧ resolvable a = true ∧ metadata a ≠ Null ∧ sized props = false)
  ∧ ((∃ message, outcome (PictureAsset props hooks) = Thrown (TypeError message))
     ↔ image props = Null
       ∨ ∃ img a, image props = Given img ∧ asset img = Some a
           ∧ resolvable a = true
           ∧ (metadata a = Null
              ∨ (accepted props img a ∧ extension a ≠ Some "svg"
                 ∧ (breakPoints props = Null
                    ∨ dimensions_readable props a = false))))
  ∧ (∀ img a, image props = Given img → asset img = Some a →
       resolvable a = true → metadata a ≠ Null → isFluid props = false →
       truthy (width props) = false → truthy (height props) = false →
       PictureAsset props hooks = Run [] (Thrown (Error missing_sizing_message))).
Proof.
  split; [split|split; [split|]].
  - intros He.
    destruct (outcome_cases props hooks)
      as [[_ Hrun] | [[_ [e Hrun]] | [[Hun _] | [_ [n Hrun]]]]];
      try (rewrite Hrun in He; discriminate); eauto.
  - intros (img & a & Himg & Hasset & Hid & Hmeta & Hsz).
    by apply (PictureAsset_unsized _ _ img a).
  - intros [message He].
    destruct (outcome_cases props hooks)
      as [[_ Hrun] | [[Hnull _] | [[_ Hrun] | [_ [n Hrun]]]]];
      try (rewrite Hrun in He; discriminate); eauto.
  - intros [Hnull | (img & a & Himg & Hasset & Hid & [Hmeta | (Hacc & Hext & Hcause)])].
    + rewrite (PictureAsset_null_image _ _ Hnull). eauto.
    + rewrite (PictureAsset_null_metadata _ _ img a) by done. eauto.
    + destruct (PictureAsset_unrendered props hooks img a Hacc Hext Hcause)
        as [message ->]. eauto.
  - intros img a Himg Hasset Hid Hmeta Hf Hw Hh.
    apply (PictureAsset_unsized _ _ img a); try done.
    unfold sized. by rewrite Hf, Hw, Hh.
Qed.

(** X7. An identity that is present but empty does not count: when
    [_ref] and [_id] are each absent or the empty string, the component
    logs the invalid-asset error and returns [null]. *)
Theorem empty_identity_renders_null `{Host} props img a hooks :
  image props = Given img → asset img = Some a →
  or_default "" (_ref a) = "" → or_default "" (_id a) = "" →
  PictureAsset props hooks = Run [invalid_asset_message] (Returned None).
Proof.
  intros Himg Hasset Href Hid.
  apply (PictureAsset_unresolvable _ _ img a); try done.
  unfold resolvable, js_or.
  destruct (_ref a) as [r|], (_id a) as [i|]; simpl in *; by subst.
Qed.

(** ** The box, the layers and the attributes of a raster render *)

Lemma div_nan_r (x : float) : x / nan = nan.
Proof.
  apply Prim2SF_inj. rewrite div_spec. change (Prim2SF nan) with S754_nan.
  by destruct (Prim2SF x).
Qed.

Lemma js_or_empty (s : string) : js_or (VStr s) (VStr "") = VStr s.
Proof. by destruct s. Qed.

Lemma placeholder_value (a : Asset) :
  js_or (nullable_string (defaulted "" (lqip (metadata_of a)))) (VStr "") =
    VStr (placeholder_src a).
Proof.
  unfold placeholder_src. destruct (lqip (metadata_of a)); try done.
  apply js_or_empty.
Qed.

Lemma clsx_toggle `{Host} (a b : string) (on : bool) :
  nonempty a = true → nonempty b = true →
  clsx [VStr a; js_and (VBool on) (VStr b)] =
    if on then a +:+ " " +:+ b else a.
Proof.
  intros Ha Hb. destruct a as [|c a], b as [|d b]; try done.
  destruct on; [|reflexivity].
  change (clsx [VStr (String c a); js_and (VBool true) (VStr (String d b))])
    with ((String c a +:+ " ") +:+ String d b).
  apply append_assoc.
Qed.

Section Raster.

Context {host : Host}.

Lemma raster_box props hooks img a :
  raster props img a →
  box_style (rendered props hooks) =
    if isFluid props then
      {[ "width" := VStr "100%";
         "height" := if truthy (height props) then height props else VStr "100%" ]}
    else
      {[ "width" := VNum (rendered_width props);
         "height" :=
           if truthy (height props) then height props
           else VNum (to_number (width props) / intrinsic_ratio a) ]}.
Proof.
  intros Hr. enter_raster Hr.
  unfold rendered_width, max_width, intrinsic_ratio.
  raster_cases props a; unfold aspectRatio_value;
    try match goal with d : Dimensions |- _ => destruct (dim_aspectRatio d) end;
    destruct (width props); reflexivity.
Qed.

(** In fixed mode without a truthy [height], a [null] [dimensions] is
    read and the read throws. *)
Lemma PictureAsset_null_dimensions props hooks img a :
  accepted props img a → extension a ≠ Some "svg" →
  isFluid props = false → truthy (height props) = false →
  dimensions_of a = None →
  PictureAsset props hooks =
    Run [] (Thrown (TypeError
      "Cannot read properties of null (reading 'aspectRatio')")).
Proof.
  intros Hacc Hext Hf Hh Hd. enter_component Hacc.
  rewrite bool_decide_false by done. by rewrite Hf, Hh, Hd.
Qed.

End Raster.

(** X8. In fluid mode the box of a raster render is as wide as its
    parent, and as high as its parent unless a truthy [height] is given,
    which is then the height. *)
Theorem fluid_box `{Host} props img a hooks :
  raster props img a → isFluid props = true →
  box_style (rendered props hooks) =
    {[ "width" := VStr "100%";
       "height" := if truthy (height props) then height props else VStr "100%" ]}.
Proof. intros Hr Hf. rewrite (raster_box _ _ img a Hr). by rewrite Hf. Qed.

(** X9. In fixed mode the box of a raster render is as wide as [width]
    when it is a number and as [maxWidth] otherwise, and as high as a
    truthy [height], or else as [width] read as a number divided by the
    asset's intrinsic aspect ratio; there is no spacer. A [width] given as
    a string therefore sets the height but not the width. *)
Theorem fixed_box `{Host} props img a hooks :
  raster props img a → isFluid props = false →
  box_style (rendered props hooks) =
    {[ "width" := VNum (rendered_width props);
       "height" :=
         if truthy (height props) then height props
         else VNum (to_number (width props) / intrinsic_ratio a) ]}
  ∧ reservations (rendered props hooks) = []
  ∧ (∀ s, width props = VStr s → truthy (height props) = false →
       box_style (rendered props hooks) =
         {[ "width" := VNum (max_width props);
            "height" := VNum (String_toNumber s / intrinsic_ratio a) ]}).
Proof.
  intros Hr Hf.
  assert (Hbox : box_style (rendered props hooks) =
    {[ "width" := VNum (rendered_width props);
       "height" :=
         if truthy (height props) then height props
         else VNum (to_number (width props) / intrinsic_ratio a) ]}).
  { by rewrite (raster_box _ _ img a Hr), Hf. }
  split; [done|]. split.
  - rewrite (raster_reservations _ _ img a Hr). by rewrite Hf.
  - intros s Hw Hh. rewrite Hbox, Hh. unfold rendered_width. by rewrite Hw.
Qed.

(** X10. Fixed mode without a truthy [height], past the guards, off the
    vector branch and with [breakPoints] not [null], by what the asset
    has for [dimensions.aspectRatio]. When [dimensions] is [null] the
    read throws a [TypeError]. When the ratio is [undefined] ([metadata],
    [dimensions] or the field being absent) the height of the box is
    [NaN] whatever the [width], and the element is returned all the same.
    When the ratio is [null] the height is [width] read as a number
    divided by [0]. *)
Theorem height_without_aspect_ratio `{Host} props img a hooks :
  accepted props img a → extension a ≠ Some "svg" →
  breakPoints props ≠ Null →
  isFluid props = false → truthy (height props) = false →
  (intrinsic_aspectRatio a = None →
     PictureAsset props hooks =
       Run [] (Thrown (TypeError
         "Cannot read properties of null (reading 'aspectRatio')")))
  ∧ (intrinsic_aspectRatio a = Some VUndefined →
       box_style (rendered props hooks) !! "height" = Some (VNum nan)
       ∧ ∃ n, PictureAsset props hooks = Run [] (Returned (Some n)))
  ∧ (intrinsic_aspectRatio a = Some VNull →
       box_style (rendered props hooks) !! "height" =
         Some (VNum (to_number (width props) / 0))
       ∧ ∃ n, PictureAsset props hooks = Run [] (Returned (Some n))).
Proof.
  intros Hacc Hext Hbp Hf Hh.
  assert (Hraster : ∀ v, intrinsic_aspectRatio a = Some v →
    raster props img a ∧ intrinsic_ratio a = to_number v).
  { intros v Hv. unfold intrinsic_aspectRatio in Hv.
    destruct (dimensions_of a) as [d|] eqn:Hd; [|done].
    injection Hv as <-. split.
    - split; try done. unfold dimensions_readable. by rewrite Hd.
    - unfold intrinsic_ratio, aspectRatio_value. rewrite Hd.
      by destruct (dim_aspectRatio d). }
  split; [|split].
  - intros Hnone. apply (PictureAsset_null_dimensions _ _ img a); try done.
    unfold intrinsic_aspectRatio in Hnone. by destruct (dimensions_of a).
  - intros Hv. destruct (Hraster _ Hv) as [Hr Hratio]. split.
    + rewrite (raster_box _ _ img a Hr), Hf, Hh, Hratio.
      cbn [to_number]. by rewrite div_nan_r.
    + by apply (PictureAsset_raster _ _ img a).
  - intros Hv. destruct (Hraster _ Hv) as [Hr Hratio]. split.
    + by rewrite (raster_box _ _ img a Hr), Hf, Hh, Hratio.
    + by apply (PictureAsset_raster _ _ img a).
Qed.

(** X11. The images of a raster render are the placeholder, then the
    final image once the instance is visible. The placeholder shows the
    asset's [lqip], or the empty string when it has none, under the text
    "Placeholder", and never a URL of the builder; a [loader] replaces
    it. The final image carries the caller's [alt]. *)
Theorem images_on_screen `{Host} props img a hooks :
  raster props img a →
  (λ m, (m !! "src", m !! "alt")) <$> tagged "img" (rendered props hooks) =
    match loader props with
    | Some _ => []
    | None => [ (Some (AVal (VStr (placeholder_src a))),
                 Some (AVal (VStr "Placeholder"))) ]
    end
    ++ (if inView hooks then
          [ (Some (AVal (VStr (builder_url
               {| b_source := img;
                  b_width := Some (max_width props);
                  b_format := None |}))),
             Some (AVal (VStr (alt props)))) ]
        else [])
  ∧ foreigns (rendered props hooks) =
      match loader props with Some token => [token] | None => [] end.
Proof.
  intros Hr. enter_raster Hr. rewrite placeholder_value.
  raster_cases props a; destruct (loader props), (inView hooks); done.
Qed.

(** X12. Inside [<picture>] the modern format comes first: a source of
    type [image/webp], then a source of the asset's [mimeType], then the
    final image; each carries the [sizes] prop as given, the empty string
    when it is left out. *)
Theorem picture_types_and_sizes `{Host} props img a hooks :
  raster props img a → inView hooks = true →
  (λ e, (e.1, e.2 !! "type", e.2 !! "sizes")) <$>
    in_picture (rendered props hooks) =
  [ ("source", Some (AVal (VStr "image/webp")),
       Some (AVal (VStr (or_default "" (sizes props)))));
    ("source", Some (AVal (of_string (mimeType a))),
       Some (AVal (VStr (or_default "" (sizes props)))));
    ("img", None, Some (AVal (VStr (or_default "" (sizes props))))) ].
Proof.
  intros Hr Hv. enter_raster Hr. rewrite Hv.
  raster_cases props a; destruct (loader props); reflexivity.
Qed.

(** X13. The reveal state shows in the class names: with non-empty
    style-sheet classes, the placeholder layer has the class [hider], and
    [hide] as well exactly when the instance is shown; [<picture>] has
    the class [picture], and [show] as well exactly when the instance is
    shown. *)
Theorem reveal_classes `{Host} props img a hooks :
  raster props img a →
  nonempty (styles "hider") = true → nonempty (styles "hide") = true →
  nonempty (styles "picture") = true → nonempty (styles "show") = true →
  (tagged "div" (rendered props hooks) !! 1%nat) ≫= (λ m, m !! "className") =
    Some (AVal (VStr
      (if show hooks then styles "hider" +:+ " " +:+ styles "hide"
       else styles "hider")))
  ∧ (λ m, m !! "className") <$> tagged "picture" (rendered props hooks) =
      [ Some (AVal (VStr
          (if show hooks then styles "picture" +:+ " " +:+ styles "show"
           else styles "picture"))) ].
Proof.
  intros Hr H1 H2 H3 H4. enter_raster Hr.
  rewrite (clsx_toggle (styles "hider")), (clsx_toggle (styles "picture"))
    by done.
  raster_cases props a; destruct (loader props), (inView hooks); done.
Qed.

(** X14. A raster render drops the pass-through properties: the
    component runs the same whatever they are. *)
Theorem raster_drops_otherProps `{Host} props img a hooks o :
  raster props img a →
  PictureAsset (with_otherProps o props) hooks = PictureAsset props hooks.
Proof.
  intros [[Himg Hasset Hid Hmeta Hsz] Hext Hbp Hdim].
  unfold PictureAsset, with_otherProps. cbn [image isFluid objectFit maxWidth
    width height aspectRatio alt className breakPoints loader sizes otherProps].
  rewrite Himg. unfold mbind, M_bind, mret, M_ret. cbn [outcome console].
  rewrite Hasset. fold (resolvable a). rewrite Hid. cbn [negb].
  destruct (negb (isFluid props) && _ && _); [done|].
  by rewrite bool_decide_false.
Qed.

(** X15. An asset without [extension] has its native source set
    requested in [jpg], the default format of [breakPointsToString]. *)
Theorem native_format_defaults_to_jpg `{Host} props img a hooks :
  raster props img a → inView hooks = true → extension a = None →
  (λ e, (e.1, e.2 !! "srcSet")) <$> in_picture (rendered props hooks) =
    [ ("source", Some (AVal (VStr
         (breakPointsToString img (Some "webp") (Some (width_ceiling props))
            (Some (break_points props))))));
      ("source", Some (AVal (VStr
         (breakPointsToString img (Some "jpg") (Some (width_ceiling props))
            (Some (break_points props))))));
      ("img", Some (AVal (VStr
         (breakPointsToString img (Some "jpg") (Some (width_ceiling props))
            (Some (break_points props)))))) ].
Proof.
  intros Hr Hv Hext.
  rewrite (raster_srcSets _ _ img a Hr Hv). by rewrite Hext.
Qed.

(** ** More on the life of an instance *)

Section Reachability.

Context {host : Host}.

(** Nothing listens for [load] while the instance is not visible. *)
Lemma hidden_handlers props hooks :
  inView hooks = false → onLoad_handlers (rendered props hooks) = [].
Proof.
  intros Hv.
  destruct (paths props) as [Hnull | [(img & a & Hacc & Hext) | (img & a & Hr)]].
  - by rewrite Hnull.
  - by destruct (svg_screen props hooks img a Hacc Hext) as (_ & _ & -> & _).
  - by destruct (raster_hidden props hooks img a Hr Hv) as (_ & _ & ->).
Qed.

(** Off the raster branch nothing is observed and nothing listens. *)
Lemma step_off_raster props hooks e :
  ¬ (∃ img a, raster props img a) → step props hooks e = hooks.
Proof.
  intros Hno.
  destruct (paths props) as [Hnull | [(img & a & Hacc & Hext) | Hr]];
    [| |done]; unfold step.
  - rewrite Hnull. by destruct e.
  - destruct (svg_screen props hooks img a Hacc Hext) as (_ & _ & -> & ->).
    by destruct e.
Qed.

Lemma step_revealed_visible props hooks e :
  (show hooks = true → inView hooks = true) →
  show (step props hooks e) = true → inView (step props hooks e) = true.
Proof.
  intros Hinv. destruct (inView hooks) eqn:Hv.
  - intros _. by apply step_inView.
  - assert (Hs : show hooks = false) by (destruct (show hooks); naive_solver).
    destruct e as [intersecting|]; unfold step.
    + unfold observer_report. rewrite Hv.
      destruct (observed _); cbn [show]; congruence.
    + rewrite (hidden_handlers props hooks Hv). cbn [foldr]. congruence.
Qed.

Lemma lifetime_revealed_visible trace hooks :
  (show hooks = true → inView hooks = true) →
  show (lifetime trace hooks) = true → inView (lifetime trace hooks) = true.
Proof.
  revert hooks. induction trace as [|[props e] trace IH]; intros hooks Hinv;
    [done|].
  apply IH. by apply step_revealed_visible.
Qed.

End Reachability.

(** X16. An instance is never revealed before it is visible: after any
    events under any props, a fresh instance is in one of three states,
    fresh, visible and not yet shown, or visible and shown. *)
Theorem reachable_states `{Host} trace :
  let hooks := lifetime trace mount in
  (show hooks = true → inView hooks = true)
  ∧ (hooks = mount ∨ hooks = visible ∨ hooks = shown).
Proof.
  intros hooks.
  assert (Hinv : show hooks = true → inView hooks = true).
  { apply lifetime_revealed_visible. done. }
  split; [done|].
  destruct hooks as [[] []]; cbn in Hinv; auto.
  by specialize (Hinv eq_refl).
Qed.

(** X17. An instance that is never rendered down the raster branch
    (invalid, throwing or vector at every event) keeps its state: no
    observer report and no load event changes it. *)
Theorem off_raster_state_is_kept `{Host} trace hooks :
  Forall (λ pe, ¬ ∃ img a, raster pe.1 img a) trace →
  lifetime trace hooks = hooks.
Proof.
  induction 1 as [|[props e] trace Hno _ IH]; [done|].
  cbn [lifetime]. by rewrite (step_off_raster props hooks e Hno).
Qed.

(** X18. Seen, then loaded: from any state, the observer's report of an
    intersection followed by the load event, each on a raster render,
    leaves the instance visible and shown. *)
Theorem seen_then_loaded `{Host} props img a props' img' a' hooks :
  raster props img a → raster props' img' a' →
  lifetime [ (props, Visibility true); (props', Load) ] hooks = shown.
Proof.
  intros Hr Hr'. cbn [lifetime].
  set (seen := step props hooks (Visibility true)).
  assert (Hv : inView seen = true).
  { unfold seen, step, observer_report.
    rewrite (raster_observed props hooks img a Hr).
    by destruct (inView hooks) eqn:E. }
  unfold step at 1.
  destruct (raster_visible props' seen img' a' Hr' Hv) as [_ ->].
  cbn [foldr run_action]. by rewrite Hv.
Qed.

(** X19. Before the instance is visible a load event changes nothing;
    a report of no intersection changes nothing in any state; and once
    the instance is visible no report of the observer changes anything,
    the observer being one-shot. *)
Theorem idle_events `{Host} props hooks :
  (inView hooks = false → step props hooks Load = hooks)
  ∧ step props hooks (Visibility false) = hooks
  ∧ (inView hooks = true →
       ∀ intersecting, step props hooks (Visibility intersecting) = hooks).
Proof.
  split; [|split].
  - intros Hv. unfold step. by rewrite (hidden_handlers props hooks Hv).
  - unfold step, observer_report.
    destruct hooks as [s []], (observed _); done.
  - intros Hv intersecting. unfold step, observer_report.
    rewrite Hv. by destruct (observed _).
Qed.

(** ** Class names *)

Lemma clsx_pair `{Host} (a b : string) :
  nonempty a = true → nonempty b = true →
  clsx [VStr a; VStr b] = a +:+ " " +:+ b.
Proof.
  intros Ha Hb. destruct a as [|c a], b as [|d b]; try done.
  change (clsx [VStr (String c a); VStr (String d b)])
    with ((String c a +:+ " ") +:+ String d b).
  apply append_assoc.
Qed.

Lemma clsx_triple `{Host} (a b c : string) (on : bool) :
  nonempty a = true → nonempty b = true → nonempty c = true →
  clsx [VStr a; js_and (VBool on) (VStr b); VStr c] =
    a +:+ (if on then " " +:+ b else "") +:+ " " +:+ c.
Proof.
  intros Ha Hb Hc.
  destruct a as [|x a], b as [|y b], c as [|z c]; try done.
  destruct on.
  - change (clsx [VStr (String x a); js_and (VBool true) (VStr (String y b));
                  VStr (String z c)])
      with ((((String x a +:+ " ") +:+ String y b) +:+ " ") +:+ String z c).
    by rewrite !append_assoc.
  - change (clsx [VStr (String x a); js_and (VBool false) (VStr (String y b));
                  VStr (String z c)])
      with ((String x a +:+ " ") +:+ String z c).
    by rewrite !append_assoc.
Qed.

Lemma clsx_optional `{Host} (a : string) (c : option string) :
  nonempty a = true →
  clsx [VStr a; match c with Some c => VStr c | None => VNull end] =
    match c with
    | Some c => if nonempty c then a +:+ " " +:+ c else a
    | None => a
    end.
Proof.
  intros Ha. destruct a as [|x a]; [done|].
  destruct c as [[|y c]|]; try reflexivity.
  change (clsx [VStr (String x a); VStr (String y c)])
    with ((String x a +:+ " ") +:+ String y c).
  apply append_assoc.
Qed.

(** X20. [objectFit] picks the fit class of both images: with non-empty
    style-sheet classes, the placeholder has the classes [lqip] and the
    fit, the final image has [image], [fluid] in fluid mode, and the fit,
    the fit being [cover] exactly when [objectFit] is the string "cover"
    and [contain] for every other value. *)
Theorem fit_classes `{Host} props img a hooks :
  raster props img a → inView hooks = true → loader props = None →
  nonempty (styles "lqip") = true → nonempty (styles "image") = true →
  nonempty (styles "fluid") = true →
  nonempty (styles "cover") = true → nonempty (styles "contain") = true →
  let fit :=
    if bool_decide (objectFit props = "cover") then styles "cover"
    else styles "contain" in
  (λ m, m !! "className") <$> tagged "img" (rendered props hooks) =
    [ Some (AVal (VStr (styles "lqip" +:+ " " +:+ fit)));
      Some (AVal (VStr
        (styles "image"
           +:+ (if isFluid props then " " +:+ styles "fluid" else "")
           +:+ " " +:+ fit))) ].
Proof.
  intros Hr Hv Hl H1 H2 H3 H4 H5 fit.
  assert (Hfit : nonempty fit = true) by (unfold fit; by case_bool_decide).
  enter_raster Hr. rewrite Hv, Hl. fold fit.
  rewrite (clsx_pair (styles "lqip") fit), (clsx_triple (styles "image"))
    by done.
  raster_cases props a; reflexivity.
Qed.

(** X21. The caller's [className] goes on the outer box after the class
    [assetWrapper]; a [className] that is [null] or empty adds nothing. *)
Theorem wrapper_class `{Host} props img a hooks :
  raster props img a → nonempty (styles "assetWrapper") = true →
  (tagged "div" (rendered props hooks) !! 0%nat) ≫= (λ m, m !! "className") =
    Some (AVal (VStr
      match className props with
      | Some c =>
          if nonempty c then styles "assetWrapper" +:+ " " +:+ c
          else styles "assetWrapper"
      | None => styles "assetWrapper"
      end)).
Proof.
  intros Hr Hw. enter_raster Hr.
  rewrite (clsx_optional (styles "assetWrapper")) by done.
  raster_cases props a; reflexivity.
Qed.

(** ** More of the component at work *)

Lemma string_photo_raster : raster string_photo (image_of photo) photo.
Proof. by repeat split. Qed.

Lemma fixed_bare_raster : raster fixed_bare (image_of bare) bare.
Proof. by repeat split. Qed.

Lemma loading_photo_raster : raster loading_photo (image_of photo) photo.
Proof. by repeat split. Qed.

Lemma source_set_empty_iff_witness :
  breakPointsToString (host := sample_host) (image_of photo)
    (Some "webp") (Some 399) (Some defaultBreakpoints) = ""
  ∧ breakPointsToString (host := sample_host) (image_of photo)
      (Some "webp") (Some 400) (Some defaultBreakpoints) ≠ "".
Proof.
  split.
  - apply (@source_set_empty_iff sample_host). repeat constructor.
  - intros Hempty.
    apply (@source_set_empty_iff sample_host) in Hempty.
    apply Forall_forall with (x := 400) in Hempty; [discriminate|].
    unfold defaultBreakpoints. set_solver.
Defined.

Lemma source_set_app_witness :
  breakPointsToString (host := sample_host) (image_of photo)
    (Some "jpg") (Some 700) (Some ([1200; 600] ++ [800; 400])) =
  "https://cdn.example/image-abc-2000x1000-jpg?w=600&fm=jpg 600w, https://cdn.example/image-abc-2000x1000-jpg?w=400&fm=jpg 400w".
Proof.
  rewrite (@source_set_app sample_host). reflexivity.
Defined.

Lemma source_set_nan_witness :
  breakPointsToString (host := sample_host) (image_of photo)
    (Some "jpg") (Some nan) (Some defaultBreakpoints) = ""
  ∧ breakPointsToString (host := sample_host) (image_of photo)
      (Some "jpg") (Some 700) (Some ([600] ++ nan :: [400])) =
    breakPointsToString (host := sample_host) (image_of photo)
      (Some "jpg") (Some 700) (Some ([600] ++ [400])).
Proof.
  split.
  - exact (proj1 (@source_set_nan sample_host (image_of photo) "jpg" 700
                    defaultBreakpoints [])).
  - exact (proj2 (@source_set_nan sample_host (image_of photo) "jpg" 700
                    [600] [400])).
Defined.

Lemma returns_element_iff_accepted_witness :
  (∃ n, outcome (PictureAsset (host := sample_host) fixed_photo mount)
          = Returned (Some n))
  ∧ console (PictureAsset (host := sample_host) fixed_photo mount) = []
  ∧ ¬ (∃ img a, accepted (with_breakPoints Null fixed_photo) img a
         ∧ (extension a = Some "svg"
            ∨ raster (with_breakPoints Null fixed_photo) img a)).
Proof.
  destruct (@returns_element_iff_accepted sample_host fixed_photo mount)
    as [Hiff Hquiet].
  destruct (@returns_element_iff_accepted sample_host
              (with_breakPoints Null fixed_photo) mount) as [Hiff' _].
  assert (Hacc : ∃ img a, accepted fixed_photo img a
                   ∧ (extension a = Some "svg" ∨ raster fixed_photo img a)).
  { exists (image_of photo), photo. split; [apply fixed_photo_raster|].
    right. apply fixed_photo_raster. }
  split; [by apply Hiff|]. split; [by apply Hquiet|].
  intros Hacc'. apply Hiff' in Hacc'. destruct Hacc' as [n Hn].
  vm_compute in Hn. discriminate.
Defined.

Lemma logs_iff_returns_null_witness :
  console (PictureAsset (host := sample_host)
             (with_image Omitted fluid_photo) mount) = [invalid_asset_message]
  ∧ outcome (PictureAsset (host := sample_host) (props_of photo) mount)
      ≠ Returned None.
Proof.
  split.
  - by apply (@logs_iff_returns_null sample_host).
  - intros Hnull.
    destruct (@logs_iff_returns_null sample_host (props_of photo) mount)
      as [[_ Hlogs] _].
    by apply (Hlogs Hnull).
Defined.

Lemma throws_iff_witness :
  PictureAsset (host := sample_host) unsized_photo mount =
    Run [] (Thrown (Error missing_sizing_message))
  ∧ (∃ message, outcome (PictureAsset (host := sample_host)
                           (with_image Null fluid_photo) mount)
                = Thrown (TypeError message))
  ∧ (∃ message, outcome (PictureAsset (host := sample_host)
                           (with_breakPoints Null fluid_photo) mount)
                = Thrown (TypeError message))
  ∧ ¬ (∃ message, outcome (PictureAsset (host := sample_host) fluid_photo mount)
                  = Thrown (TypeError message)).
Proof.
  assert (Hmeta : metadata photo ≠ Null) by discriminate.
  destruct (@throws_iff sample_host unsized_photo mount) as (_ & _ & Hfalsy).
  destruct (@throws_iff sample_host (with_image Null fluid_photo) mount)
    as (_ & Hnull & _).
  destruct (@throws_iff sample_host (with_breakPoints Null fluid_photo) mount)
    as (_ & Hbp & _).
  destruct (@throws_iff sample_host fluid_photo mount) as (_ & Hnone & _).
  split; [by apply (Hfalsy (image_of photo) photo)|].
  split; [apply Hnull; by left|]. split.
  - apply Hbp. right. exists (image_of photo), photo.
    repeat split; try done. right. repeat split; try done. by left.
  - intros Hthrows. apply Hnone in Hthrows.
    destruct Hthrows as [Himg | (img & a & Himg & Hasset & _ & Hcause)];
      [discriminate|].
    injection Himg as <-. injection Hasset as <-.
    destruct Hcause as [? | (_ & _ & [? | ?])]; discriminate.
Defined.

Lemma empty_identity_renders_null_witness :
  PictureAsset (host := sample_host) (fluid (props_of blank)) mount =
    Run [invalid_asset_message] (Returned None).
Proof.
  by apply (@empty_identity_renders_null sample_host (fluid (props_of blank))
              (image_of blank) blank mount).
Defined.

Lemma fluid_box_witness :
  box_style (rendered (host := sample_host) fluid_photo mount) =
    {[ "width" := VStr "100%"; "height" := VStr "100%" ]}
  ∧ box_style (rendered (host := sample_host)
                 (with_height (VNum 300) fluid_photo) mount) =
    {[ "width" := VStr "100%"; "height" := VNum 300 ]}.
Proof.
  split.
  - by apply (@fluid_box sample_host fluid_photo (image_of photo) photo mount).
  - by apply (@fluid_box sample_host (with_height (VNum 300) fluid_photo)
                (image_of photo) photo mount).
Defined.

Lemma fixed_box_witness :
  box_style (rendered (host := sample_host) string_photo mount) =
    {[ "width" := VNum 1780; "height" := VNum 200 ]}
  ∧ reservations (rendered (host := sample_host) string_photo mount) = [].
Proof.
  destruct (@fixed_box sample_host string_photo (image_of photo) photo mount
              string_photo_raster eq_refl) as (_ & Hnone & Hstring).
  split; [|exact Hnone].
  exact (Hstring "400" eq_refl eq_refl).
Defined.

Lemma height_without_aspect_ratio_witness :
  box_style (rendered (host := sample_host) fixed_bare mount) !! "height" =
    Some (VNum nan)
  ∧ PictureAsset (host := sample_host) (fixed 400 (props_of null_dimensions)) mount =
      Run [] (Thrown (TypeError
        "Cannot read properties of null (reading 'aspectRatio')"))
  ∧ box_style (rendered (host := sample_host)
                 (fixed 400 (props_of null_ratio)) mount) !! "height" =
      Some (VNum infinity).
Proof.
  assert (Hrun : ∀ a, metadata a ≠ Null → resolvable a = true →
    extension a ≠ Some "svg" →
    (intrinsic_aspectRatio a = None →
       PictureAsset (host := sample_host) (fixed 400 (props_of a)) mount =
         Run [] (Thrown (TypeError
           "Cannot read properties of null (reading 'aspectRatio')")))
    ∧ (intrinsic_aspectRatio a = Some VUndefined →
         box_style (rendered (host := sample_host)
                      (fixed 400 (props_of a)) mount) !! "height"
           = Some (VNum nan))
    ∧ (intrinsic_aspectRatio a = Some VNull →
         box_style (rendered (host := sample_host)
                      (fixed 400 (props_of a)) mount) !! "height"
           = Some (VNum (400 / 0)))).
  { intros a Hmeta Hid Hext.
    destruct (@height_without_aspect_ratio sample_host
                (fixed 400 (props_of a)) (image_of a) a mount)
      as (Hthrows & Hnan & Hinf); try done.
    split; [done|]. split; intros Hv; [by apply Hnan | by apply Hinf]. }
  split; [by apply (Hrun bare)|].
  split; [by apply (Hrun null_dimensions) | by apply (Hrun null_ratio)].
Defined.

Lemma images_on_screen_witness :
  (λ m, (m !! "src", m !! "alt")) <$>
    tagged "img" (rendered (host := sample_host) fluid_photo visible) =
  [ (Some (AVal (VStr "data:image/jpeg;base64,AAAA")),
     Some (AVal (VStr "Placeholder")));
    (Some (AVal (VStr "https://cdn.example/image-abc-2000x1000-jpg?w=1780")),
     Some (AVal (VStr ""))) ]
  ∧ tagged "img" (rendered (host := sample_host) loading_photo mount) = []
  ∧ foreigns (rendered (host := sample_host) loading_photo mount) = ["spinner"].
Proof.
  destruct (@images_on_screen sample_host fluid_photo (image_of photo) photo
              visible fluid_photo_raster) as [Himgs _].
  destruct (@images_on_screen sample_host loading_photo (image_of photo) photo
              mount loading_photo_raster) as [Hnone Hloader].
  split; [exact Himgs|]. split; [|exact Hloader].
  by destruct (tagged "img" _).
Defined.

Lemma picture_types_and_sizes_witness :
  (λ e, (e.1, e.2 !! "type", e.2 !! "sizes")) <$>
    in_picture (rendered (host := sample_host) fluid_photo visible) =
  [ ("source", Some (AVal (VStr "image/webp")), Some (AVal (VStr "")));
    ("source", Some (AVal (VStr "image/jpeg")), Some (AVal (VStr "")));
    ("img", None, Some (AVal (VStr ""))) ].
Proof.
  by apply (@picture_types_and_sizes sample_host fluid_photo (image_of photo)
              photo visible).
Defined.

Lemma reveal_classes_witness :
  (λ m, m !! "className") <$>
    tagged "picture" (rendered (host := sample_host) fluid_photo visible) =
    [ Some (AVal (VStr "pa_picture")) ]
  ∧ (λ m, m !! "className") <$>
      tagged "picture" (rendered (host := sample_host) fluid_photo shown) =
    [ Some (AVal (VStr "pa_picture pa_show")) ]
  ∧ (tagged "div" (rendered (host := sample_host) fluid_photo shown) !! 1%nat)
      ≫= (λ m, m !! "className") =
    Some (AVal (VStr "pa_hider pa_hide")).
Proof.
  destruct (@reveal_classes sample_host fluid_photo (image_of photo) photo
              visible fluid_photo_raster eq_refl eq_refl eq_refl eq_refl)
    as [_ Hhidden].
  destruct (@reveal_classes sample_host fluid_photo (image_of photo) photo
              shown fluid_photo_raster eq_refl eq_refl eq_refl eq_refl)
    as [Hlayer Hshown].
  split; [exact Hhidden|]. split; [exact Hshown | exact Hlayer].
Defined.

Lemma raster_drops_otherProps_witness :
  PictureAsset (host := sample_host)
    (with_otherProps {[ "title" := PVal (VStr "A photo") ]} fixed_photo) visible =
  PictureAsset (host := sample_host) fixed_photo visible.
Proof.
  by apply (@raster_drops_otherProps sample_host fixed_photo (image_of photo)
              photo visible).
Defined.

Lemma native_format_defaults_to_jpg_witness :
  (λ e, (e.1, e.2 !! "srcSet")) <$>
    in_picture (rendered (host := sample_host) fixed_bare visible) =
  [ ("source", Some (AVal (VStr "https://cdn.example/image-ghi?w=400&fm=webp 400w")));
    ("source", Some (AVal (VStr "https://cdn.example/image-ghi?w=400&fm=jpg 400w")));
    ("img", Some (AVal (VStr "https://cdn.example/image-ghi?w=400&fm=jpg 400w"))) ].
Proof.
  by apply (@native_format_defaults_to_jpg sample_host fixed_bare
              (image_of bare) bare visible).
Defined.

Lemma reachable_states_witness :
  lifetime (host := sample_host)
    [ (fluid_photo, Load); (fluid_photo, Visibility true) ] mount = visible.
Proof.
  destruct (@reachable_states sample_host
              [ (fluid_photo, Load); (fluid_photo, Visibility true) ])
    as [_ [Hm | [Hv | Hs]]]; [|exact Hv|]; vm_compute in *; discriminate.
Defined.

Lemma off_raster_state_is_kept_witness :
  lifetime (host := sample_host)
    [ (fluid (props_of logo), Visibility true); (props_of photo, Load);
      (fluid (props_of anonymous), Visibility true) ] mount = mount.
Proof.
  apply (@off_raster_state_is_kept sample_host).
  repeat constructor; intros (img & a & [[Himg Hasset Hid Hmeta Hsz] Hext Hbp Hdim]);
    cbn in Himg; injection Himg as <-; cbn in Hasset; injection Hasset as <-;
    done.
Defined.

Lemma seen_then_loaded_witness :
  lifetime (host := sample_host)
    [ (fluid_photo, Visibility true); (fixed_photo, Load) ] mount = shown.
Proof.
  exact (@seen_then_loaded sample_host fluid_photo (image_of photo) photo
           fixed_photo (image_of photo) photo mount
           fluid_photo_raster fixed_photo_raster).
Defined.

Lemma idle_events_witness :
  step (host := sample_host) fluid_photo mount Load = mount
  ∧ step (host := sample_host) fluid_photo visible (Visibility false) = visible.
Proof.
  destruct (@idle_events sample_host fluid_photo mount) as [Hload _].
  destruct (@idle_events sample_host fluid_photo visible) as (_ & _ & Hseen).
  split; [by apply Hload | by apply Hseen].
Defined.

Lemma hero_photo_raster : raster hero_photo (image_of photo) photo.
Proof. by repeat split. Qed.

Lemma fit_classes_witness :
  (λ m, m !! "className") <$>
    tagged "img" (rendered (host := sample_host) hero_photo visible) =
    [ Some (AVal (VStr "pa_lqip pa_contain"));
      Some (AVal (VStr "pa_image pa_fluid pa_contain")) ]
  ∧ (λ m, m !! "className") <$>
      tagged "img" (rendered (host := sample_host) fixed_photo visible) =
    [ Some (AVal (VStr "pa_lqip pa_cover"));
      Some (AVal (VStr "pa_image pa_cover")) ].
Proof.
  split.
  - exact (@fit_classes sample_host hero_photo (image_of photo) photo visible
             hero_photo_raster eq_refl eq_refl
             eq_refl eq_refl eq_refl eq_refl eq_refl).
  - exact (@fit_classes sample_host fixed_photo (image_of photo) photo visible
             fixed_photo_raster eq_refl eq_refl
             eq_refl eq_refl eq_refl eq_refl eq_refl).
Defined.

Lemma wrapper_class_witness :
  (tagged "div" (rendered (host := sample_host) hero_photo mount) !! 0%nat)
    ≫= (λ m, m !! "className") =
    Some (AVal (VStr "pa_assetWrapper hero")).
Proof.
  exact (@wrapper_class sample_host hero_photo (image_of photo) photo mount
           hero_photo_raster eq_refl).
Defined.
